(** * The release-table generator [.github/scripts/update-readme.py]

    A shallow embedding of the script and the properties of the table it
    writes to [releases/README.md].

    Python text is modelled by [string] (a sequence of bytes, compared
    byte by byte as Python compares code points), a metadata record by a
    finite map from keys to scalar values, the insertion-ordered
    dictionary [folders_data] by an association list, exceptions by an
    error monad and the file system by a tree that is threaded through
    the input and output operations. *)

From Stdlib Require Import ZArith String Ascii List DecimalString.
From stdpp Require Import base option list sorting strings gmap.

(** ** Scalar values of a metadata document *)

(** What [yaml.safe_load] puts under a key.  Values that are neither text,
    an integer, a boolean nor null (a float, a date, a nested sequence or
    mapping) are carried with the text [str()] gives for them, which is all
    the script can observe of a value that is not text. *)
Inductive yval : Type :=
  | VStr (s : string)
  | VInt (z : Z)
  | VBool (b : bool)
  | VNull
  | VOther (repr : string).

(** A metadata record: the mapping of one folder.  Keys are text, as in the
    data model of the specification; a mapping with a key that is not text
    has no record here. *)
Abbreviation record := (gmap string yval).

(** Python's [str(v)].  The limit that recent interpreters put on the
    number of digits of an integer is left out. *)
Definition str (v : yval) : string :=
  match v with
  | VStr s => s
  | VInt z => NilZero.string_of_int (Z.to_int z)
  | VBool true => "True"
  | VBool false => "False"
  | VNull => "None"
  | VOther repr => repr
  end.

(** ** Exceptions *)

Inductive exn : Type :=
  | TypeError
  | ValueError
  | KeyError
  | OSError
  | YAMLError.

Inductive result (A : Type) : Type :=
  | Ok (a : A)
  | Raise (e : exn).
Global Arguments Ok {A} a.
Global Arguments Raise {A} e.

Global Instance result_ret : MRet result := λ A a, Ok a.
Global Instance result_bind : MBind result := λ A B f m,
  match m with
  | Ok a => f a
  | Raise e => Raise e
  end.

(** ** Text operations *)

(** The line break ['\n']. *)
Definition nl : string := String "010"%char "".

(** [a + b] where, as everywhere in the script, one operand is text: only
    text plus text is defined, everything else raises [TypeError].  (A list
    on the left of [+=] is extended in place instead, and is then rejected
    with the same [TypeError] by [join].) *)
Definition add (a b : yval) : result yval :=
  match a, b with
  | VStr x, VStr y => Ok (VStr (x +:+ y))
  | _, _ => Raise TypeError
  end.

(** The items of a sequence that [str.join] accepts: all of them text. *)
Fixpoint texts (l : list yval) : result (list string) :=
  match l with
  | [] => Ok []
  | VStr s :: l' => ss ← texts l'; Ok (s :: ss)
  | _ :: _ => Raise TypeError
  end.

(** [sep.join(l)]. *)
Definition join (sep : string) (l : list yval) : result string :=
  ss ← texts l; Ok (String.concat sep ss).

(** [s * n]. *)
Fixpoint mul (s : string) (n : nat) : string :=
  match n with
  | O => ""
  | S n' => s +:+ mul s n'
  end.

(** [s.endswith(suffix)]. *)
Definition endswith (s suffix : string) : bool :=
  let n := String.length s in
  let m := String.length suffix in
  (m <=? n)%nat && String.eqb (String.substring (n - m) m s) suffix.

(** [sorted(l)] on text: ascending in [String.le]. *)
Definition sorted (l : list string) : list string := merge_sort String.le l.

(** ** Dictionaries in insertion order *)

Module Dict.
Section dict.
Context {V : Type}.

Definition t : Type := list (string * V).

Definition empty : t := [].

(** [d[k] = v]: a present key keeps its place, a new one goes last. *)
Fixpoint set (k : string) (v : V) (d : t) : t :=
  match d with
  | [] => [(k, v)]
  | (k', v') :: d' =>
      if decide (k = k') then (k, v) :: d' else (k', v') :: set k v d'
  end.

Fixpoint get (k : string) (d : t) : option V :=
  match d with
  | [] => None
  | (k', v) :: d' => if decide (k = k') then Some v else get k d'
  end.

(** [d[k]], which raises [KeyError] on a missing key. *)
Definition getitem (d : t) (k : string) : result V :=
  match get k d with
  | Some v => Ok v
  | None => Raise KeyError
  end.

Definition keys (d : t) : list string := d.*1.
Definition values (d : t) : list V := d.*2.

(** Keys are unique; [set] keeps them so. *)
Definition wf (d : t) : Prop := NoDup (keys d).
End dict.
Global Arguments t : clear implicits.
End Dict.

(** ** [update_readme]: the table *)

Definition desired_order : list string :=
  ["Description"; "Version"; "Language"; "Creator"].

(** [d.get(k, dflt)] and [k in d] on a record. *)
Definition get (d : record) (k : string) (dflt : yval) : yval :=
  default dflt (d !! k).
Definition contains (d : record) (k : string) : bool :=
  bool_decide (is_Some (d !! k)).

(** The set built by the first loop, then [sorted] into a list. *)
Definition all_keys (folders_data : Dict.t record) : list string :=
  let all_keys : gset string :=
    foldl (λ acc data, acc ∪ dom data) ∅ (Dict.values folders_data) in
  sorted (elements all_keys).

Definition ordered_keys (folders_data : Dict.t record) : list string :=
  filter (λ key, key ∈ all_keys folders_data) desired_order.

Definition headers (folders_data : Dict.t record) : list string :=
  "Folder Name" :: ordered_keys folders_data.

Definition header_line (folders_data : Dict.t record) : string :=
  "| " +:+ String.concat " | " (headers folders_data) +:+ " |" +:+ nl.

Definition dividers (folders_data : Dict.t record) : list string :=
  (λ header, mul "-" (String.length header)) <$> headers folders_data.

Definition divider_line (folders_data : Dict.t record) : string :=
  "| " +:+ String.concat " | " (dividers folders_data) +:+ " |" +:+ nl.

(** The Description cell of a record, before it is joined into the row. *)
Definition descr_cell (d : record) : result yval :=
  let descr := get d "Description" (VStr "") in
  if contains d "Editor" then
    t1 ← add (VStr "<br>[Web editor](") (get d "Editor" (VStr ""));
    t2 ← add t1 (VStr ")");
    add descr t2
  else Ok descr.

(** The Version cell of a record. *)
Definition vers_cell (d : record) : result yval :=
  let vers := VStr (str (get d "Version" (VStr ""))) in
  if contains d "Status" then
    t ← add (VStr "<br>") (get d "Status" (VStr ""));
    add vers t
  else Ok vers.

(** The list [row] of one folder. *)
Definition row (folder : string) (d : record) : result (list yval) :=
  descr ← descr_cell d;
  vers ← vers_cell d;
  Ok [VStr folder; descr; vers;
      get d "Language" (VStr ""); get d "Creator" (VStr "")].

(** The cells of a row as [join] takes them. *)
Definition row_cells (folder : string) (d : record) : result (list string) :=
  r ← row folder d; texts r.

Definition row_line (folder : string) (d : record) : result string :=
  r ← row folder d;
  s ← join " | " r;
  Ok ("| " +:+ s +:+ " |" +:+ nl).

(** The loop over [sorted_folders], appending to [new_table]. *)
Fixpoint rows_loop (folders_data : Dict.t record) (folders : list string)
    (new_table : list string) : result (list string) :=
  match folders with
  | [] => Ok new_table
  | folder :: rest =>
      d ← Dict.getitem folders_data folder;
      line ← row_line folder d;
      rows_loop folders_data rest (new_table ++ [line])
  end.

Definition sorted_folders (folders_data : Dict.t record) : list string :=
  sorted (Dict.keys folders_data).

(** [new_table] as it stands when the file is opened. *)
Definition new_table (folders_data : Dict.t record) : result (list string) :=
  rows_loop folders_data (sorted_folders folders_data)
    [header_line folders_data; divider_line folders_data].

(** ** The file system *)

Definition path : Type := list string.

(** [os.path.join(p, name)]. *)
Definition path_join (p : path) (name : string) : path := p ++ [name].

Module FS.
(** A directory holds its entries in the order [os.listdir] gives them. *)
#[warnings="-register-all"] Inductive node : Type :=
  | File (content : string)
  | Dir (entries : list (string * node)).

(** The node at a path, from the working directory [n]. *)
Fixpoint lookup (p : path) (n : node) : option node :=
  match p with
  | [] => Some n
  | name :: p' =>
      match n with
      | File _ => None
      | Dir entries => Dict.get name entries ≫= lookup p'
      end
  end.

(** The tree with a file of content [c] at [p]: the file is replaced or
    created in its directory; there is no result when the directory is
    missing or [p] is itself a directory. *)
Fixpoint store (p : path) (c : string) (n : node) : option node :=
  match p with
  | [] => None
  | name :: p' =>
      match n with
      | File _ => None
      | Dir entries =>
          match p' with
          | [] =>
              match Dict.get name entries with
              | Some (Dir _) => None
              | _ => Some (Dir (Dict.set name (File c) entries))
              end
          | _ :: _ =>
              n' ← Dict.get name entries;
              n'' ← store p' c n';
              Some (Dir (Dict.set name n'' entries))
          end
      end
  end.
End FS.

(** ** Input and output: exceptions over a threaded file system *)

Definition io (A : Type) : Type := FS.node → result A * FS.node.

Global Instance io_ret : MRet io := λ A a st, (Ok a, st).
Global Instance io_bind : MBind io := λ A B f m st,
  match m st with
  | (Ok a, st') => f a st'
  | (Raise e, st') => (Raise e, st')
  end.

(** A computation that touches no file. *)
Definition pure {A : Type} (r : result A) : io A := λ st, (r, st).

Definition listdir (p : path) : io (list string) := λ st,
  match FS.lookup p st with
  | Some (FS.Dir entries) => (Ok (Dict.keys entries), st)
  | _ => (Raise OSError, st)
  end.

Definition isdir (p : path) : io bool := λ st,
  match FS.lookup p st with
  | Some (FS.Dir _) => (Ok true, st)
  | _ => (Ok false, st)
  end.

(** [open(p, 'r')] and reading the whole stream. *)
Definition read_text (p : path) : io string := λ st,
  match FS.lookup p st with
  | Some (FS.File content) => (Ok content, st)
  | _ => (Raise OSError, st)
  end.

(** [open(p, 'w')]: the file is created, or truncated. *)
Definition open_w (p : path) : io unit := λ st,
  match FS.store p "" st with
  | Some st' => (Ok (), st')
  | None => (Raise OSError, st)
  end.

(** [file.write(s)] on the file opened at [p].  The text is taken as it
    is: an encoding that cannot hold it and a device that is full are left
    out, so that here a write to an open file does not fail. *)
Definition write (p : path) (s : string) : io unit := λ st,
  match FS.lookup p st with
  | Some (FS.File content) =>
      match FS.store p (content +:+ s) st with
      | Some st' => (Ok (), st')
      | None => (Raise OSError, st)
      end
  | _ => (Raise OSError, st)
  end.

(** [file.writelines(lines)]. *)
Fixpoint writelines (p : path) (lines : list string) : io unit :=
  match lines with
  | [] => mret ()
  | line :: rest => write p line ≫= λ _, writelines p rest
  end.

Definition base_folder : path := ["releases"].
Definition readme_path : path := path_join base_folder "README.md".

Definition update_readme (folders_data : Dict.t record) : io unit :=
  new_table ← pure (new_table folders_data);
  open_w readme_path ≫= λ _,
  write readme_path ("# Releases  " +:+ nl) ≫= λ _,
  writelines readme_path new_table.

(** ** Reading the metadata: [read_data] and [main] *)

(** What [yaml.safe_load] returns, as far as [dict.update] tells apart: a
    mapping, or a document [update] rejects with the given exception
    ([TypeError] for the null of an empty document or a number, [ValueError]
    for text).  An empty sequence, which [update] takes as no items, is
    [Mapping ∅]. *)
Inductive document : Type :=
  | Mapping (m : record)
  | NotMapping (e : exn).

(** [data.update(file_data)]. *)
Definition update (data : record) (file_data : document) : result record :=
  match file_data with
  | Mapping m => Ok (m ∪ data)
  | NotMapping e => Raise e
  end.

Definition is_metadata (file : string) : bool :=
  endswith file ".yaml" || endswith file ".yml".

Section script.
(** The YAML parser, on the text of a file. *)
Variable safe_load : string → result document.

(** The [return {}] after the [with] block is never reached. *)
Definition read_data (file_path : path) : io document :=
  file ← read_text file_path;
  pure (safe_load file).

(** The inner loop of [main]: the first metadata file is read, then
    [break]. *)
Fixpoint scan (folder_path : path) (files : list string) (data : record)
    : io record :=
  match files with
  | [] => mret data
  | file :: rest =>
      let file_path := path_join folder_path file in
      if is_metadata file then
        file_data ← read_data file_path;
        pure (update data file_data)
      else scan folder_path rest data
  end.

(** The outer loop of [main]. *)
Fixpoint folders_loop (entries : list string) (folders_data : Dict.t record)
    : io (Dict.t record) :=
  match entries with
  | [] => mret folders_data
  | folder :: rest =>
      let folder_path := path_join base_folder folder in
      b ← isdir folder_path;
      if b : bool then
        files ← listdir folder_path;
        data ← scan folder_path files ∅;
        folders_loop rest (Dict.set folder data folders_data)
      else folders_loop rest folders_data
  end.

Definition main : io unit :=
  entries ← listdir base_folder;
  folders_data ← folders_loop entries Dict.empty;
  update_readme folders_data.
End script.

(** ** The example of the specification *)

Definition d_a : record :=
  <["Description" := VStr "Tool A"]> (<["Version" := VStr "1.0"]>
  (<["Creator" := VStr "X"]> (<["Editor" := VStr "http://e"]> ∅))).
Definition d_b : record :=
  <["Description" := VStr "Tool B"]> (<["Version" := VInt 2]>
  (<["Language" := VStr "Go"]> ∅)).
Definition fd_ab : Dict.t record :=
  Dict.set "a" d_a (Dict.set "b" d_b Dict.empty).
Definition fd_ba : Dict.t record :=
  Dict.set "b" d_b (Dict.set "a" d_a Dict.empty).

Definition lines_ab : list string :=
  ["| Folder Name | Description | Version | Language | Creator |" +:+ nl;
   "| ----------- | ----------- | ------- | -------- | ------- |" +:+ nl;
   "| a | Tool A<br>[Web editor](http://e) | 1.0 |  | X |" +:+ nl;
   "| b | Tool B | 2 | Go |  |" +:+ nl].

Definition d_beta : record :=
  <["Version" := VInt 3]> (<["Status" := VStr "beta"]> ∅).

(** A toy parser and two working directories to run [main] on. *)
Definition toy_load (s : string) : result document :=
  if String.eqb s "a" then Ok (Mapping d_a)
  else if String.eqb s "b" then Ok (Mapping d_b)
  else if String.eqb s "" then Ok (NotMapping TypeError)
  else Raise YAMLError.

Definition files_c : list (string * FS.node) := [("notes.txt", FS.File "n")].

Definition releases_ab : list (string * FS.node) :=
  [("b", FS.Dir [("notes.txt", FS.File "n"); ("info.yaml", FS.File "b")]);
   ("README.md", FS.File "old text");
   ("a", FS.Dir [("info.yml", FS.File "a"); ("z.yaml", FS.File "{")]);
   ("c", FS.Dir files_c)].

Definition cwd_ab : FS.node := FS.Dir [("releases", FS.Dir releases_ab)].

Definition files_x : list (string * FS.node) :=
  [("notes.txt", FS.File "n"); ("meta.yaml", FS.File "{")].

Definition releases_bad : list (string * FS.node) :=
  [("a", FS.Dir [("info.yml", FS.File "a")]);
   ("README.md", FS.File "old text");
   ("x", FS.Dir files_x);
   ("b", FS.Dir [("info.yaml", FS.File "b")])].

Definition cwd_bad : FS.node := FS.Dir [("releases", FS.Dir releases_bad)].

(** The mapping that [main] builds in [cwd_ab]. *)
Definition fd_abc : Dict.t record := [("b", d_b); ("a", d_a); ("c", ∅)].

(** The two folders with a key more in each record. *)
Definition fd_ab_notes : Dict.t record :=
  [("b", <["Notes" := VStr "draft"]> d_b); ("a", <["Licence" := VInt 3]> d_a)].

(** A folder whose metadata file is empty, and one whose metadata file is a
    directory. *)
Definition releases_empty_doc : list (string * FS.node) :=
  [("a", FS.Dir [("info.yml", FS.File "a")]);
   ("e", FS.Dir [("meta.yml", FS.File "")])].

Definition cwd_empty_doc : FS.node :=
  FS.Dir [("releases", FS.Dir releases_empty_doc)].

Definition releases_dir_yaml : list (string * FS.node) :=
  [("a", FS.Dir [("info.yml", FS.File "a")]);
   ("d", FS.Dir [("old.yaml", FS.Dir []); ("info.yaml", FS.File "b")])].

Definition cwd_dir_yaml : FS.node :=
  FS.Dir [("releases", FS.Dir releases_dir_yaml)].

(** A record with a number under Description, and a working directory
    in which [README.md] is a directory. *)
Definition fd_number : Dict.t record :=
  [("n", <["Description" := VInt 2024]> ∅)].

Definition cwd_readme_dir : FS.node :=
  FS.Dir [("releases", FS.Dir [("README.md", FS.Dir []);
                               ("a", FS.Dir [("info.yml", FS.File "a")])])].

(** ** What the claims speak of *)

(** Strictly ascending, in the order of [<] on text. *)
Definition ascending (l : list string) : Prop :=
  StronglySorted (λ x y, String.ltb x y = true) l.

(** The key occurs in the record of at least one folder. *)
Definition occurs (folders_data : Dict.t record) (key : string) : Prop :=
  Exists (λ data : record, is_Some (data !! key)) (Dict.values folders_data).

(** The line of one folder of the mapping. *)
Definition line_of (folders_data : Dict.t record) (folder line : string)
    : Prop :=
  ∃ d cells, Dict.get folder folders_data = Some d ∧
    row_cells folder d = Ok cells ∧
    line = "| " +:+ String.concat " | " cells +:+ " |" +:+ nl.

(** A record whose values under the keys the table prints are text gives a
    row, and no other record does. *)
Definition printable (d : record) : Prop :=
  ∀ key v, key ∈ ["Description"; "Editor"; "Status"; "Language"; "Creator"] →
    d !! key = Some v → ∃ s, v = VStr s.

(** No file of the listing is a metadata file. *)
Definition no_metadata (files : list string) : Prop :=
  Forall (λ file, is_metadata file = false) files.

(** The first metadata file of [folder] does not parse. *)
Definition parse_fails (safe_load : string → result document)
    (st : FS.node) (folder : string) (e : exn) : Prop :=
  ∃ entries skipped file rest content,
    FS.lookup (path_join base_folder folder) st = Some (FS.Dir entries) ∧
    Dict.keys entries = skipped ++ file :: rest ∧
    no_metadata skipped ∧ is_metadata file = true ∧
    FS.lookup (path_join (path_join base_folder folder) file) st
      = Some (FS.File content) ∧
    safe_load content = Raise e.

(** ** Further notions *)

(** [releases/README.md] can be opened for writing: [releases] is a
    directory of the working directory, and [README.md] is not a directory
    in it. *)
Definition readme_writable (st : FS.node) : Prop :=
  ∃ root entries, st = FS.Dir root ∧
    Dict.get "releases" root = Some (FS.Dir entries) ∧
    ∀ es, Dict.get "README.md" entries ≠ Some (FS.Dir es).

(** The text that [update_readme] writes for the lines of a table. *)
Definition readme_text (lines : list string) : string :=
  "# Releases  " +:+ nl +:+ String.concat "" lines.

(** The keys that [update_readme] reads from a record. *)
Definition used_keys : list string :=
  ["Description"; "Editor"; "Version"; "Status"; "Language"; "Creator"].

(** [file] is the first metadata file in the listing of [folder], and [n]
    is what the file system holds under its path. *)
Definition first_metadata (st : FS.node) (folder file : string)
    (n : option FS.node) : Prop :=
  ∃ entries skipped rest,
    FS.lookup (path_join base_folder folder) st = Some (FS.Dir entries) ∧
    Dict.keys entries = skipped ++ file :: rest ∧
    no_metadata skipped ∧ is_metadata file = true ∧
    FS.lookup (path_join (path_join base_folder folder) file) st = n.

(** [data] is the record of the directory [folder]: empty when the folder
    has no metadata file, and else the mapping in its first metadata file. *)
Definition record_of (safe_load : string → result document)
    (st : FS.node) (folder : string) (data : record) : Prop :=
  (∃ files, FS.lookup (path_join base_folder folder) st = Some (FS.Dir files) ∧
     no_metadata (Dict.keys files) ∧ data = ∅) ∨
  (∃ file content,
     first_metadata st folder file (Some (FS.File content)) ∧
     safe_load content = Ok (Mapping data)).

(** Two records agree on the keys that [update_readme] reads. *)
Definition agree_on_used (d d' : record) : Prop :=
  ∀ key, key ∈ used_keys → d' !! key = d !! key.

(** Two mappings have the same folders, in the same order, with records
    that agree on the keys that [update_readme] reads. *)
Definition same_used (folders_data folders_data' : Dict.t record) : Prop :=
  Forall2 (λ x y, x.1 = y.1 ∧ agree_on_used x.2 y.2) folders_data folders_data'.

(** * Properties *)

(** ** The error monad *)

Ltac result_simpl :=
  unfold mbind, result_bind, mret, result_ret in *; simpl in *.

Lemma bind_Ok {A B} (m : result A) (f : A → result B) b :
  m ≫= f = Ok b ↔ ∃ a, m = Ok a ∧ f a = Ok b.
Proof.
  destruct m as [a|e]; result_simpl; split.
  - eauto.
  - by intros (a' & [= ->] & ?).
  - done.
  - by intros (? & ? & ?).
Qed.

(** ** Text *)

Lemma texts_Ok l ss : texts l = Ok ss ↔ l = VStr <$> ss.
Proof.
  revert ss. induction l as [|v l IH]; intros ss; simpl.
  - split; [intros [= <-]; done|]. by destruct ss.
  - destruct v; try (split; [done|by destruct ss]).
    rewrite bind_Ok. split.
    + intros (ss' & Hss' & [= <-]). apply IH in Hss' as ->. done.
    + destruct ss as [|s' ss]; intros [= -> ->]. exists ss.
      split; [by apply IH|done].
Qed.

Lemma length_mul_dash n : String.length (mul "-" n) = n.
Proof.
  induction n as [|n IH]; [done|].
  change (S (String.length (mul "-" n)) = S n). by rewrite IH.
Qed.

Lemma get_mul_dash n i : i < n → String.get i (mul "-" n) = Some "-"%char.
Proof.
  revert i. induction n as [|n IH]; intros i Hi; [lia|].
  change (mul "-" (S n)) with (String "-"%char (mul "-" n)).
  destruct i; simpl; [done|]. apply IH. lia.
Qed.

(** ** The cells of a row *)

Lemma add_Ok a b c :
  add a b = Ok c ↔ ∃ x y, a = VStr x ∧ b = VStr y ∧ c = VStr (x +:+ y).
Proof.
  split.
  - destruct a, b; simpl; intros [= <-]; eauto.
  - by intros (x & y & -> & -> & ->).
Qed.

Lemma contains_lookup d k : contains d k = bool_decide (d !! k ≠ None).
Proof.
  unfold contains. apply bool_decide_ext.
  rewrite <-not_eq_None_Some. done.
Qed.

Lemma descr_cell_Ok d c :
  descr_cell d = Ok c ↔
  match d !! "Editor" with
  | Some v => ∃ descr e, get d "Description" (VStr "") = VStr descr ∧
      v = VStr e ∧ c = VStr (descr +:+ "<br>[Web editor](" +:+ e +:+ ")")
  | None => c = get d "Description" (VStr "")
  end.
Proof.
  unfold descr_cell, contains, get at 2.
  destruct (d !! "Editor") as [v|] eqn:Hed; simpl.
  - split.
    + destruct v as [e| | | |]; result_simpl; try done.
      destruct (get d "Description" (VStr "")) as [descr| | | |];
        simpl; try done.
      intros [= <-]. eauto.
    + intros (descr & e & Hdescr & -> & ->). result_simpl.
      by rewrite Hdescr.
  - split; congruence.
Qed.

Lemma vers_cell_Ok d c :
  vers_cell d = Ok c ↔
  match d !! "Status" with
  | Some v => ∃ status, v = VStr status ∧
      c = VStr (str (get d "Version" (VStr "")) +:+ "<br>" +:+ status)
  | None => c = VStr (str (get d "Version" (VStr "")))
  end.
Proof.
  unfold vers_cell, contains, get at 2.
  destruct (d !! "Status") as [v|] eqn:Hst; simpl.
  - split.
    + destruct v as [status| | | |]; result_simpl; try done.
      intros [= <-]. eauto.
    + by intros (status & -> & ->).
  - split; congruence.
Qed.

(** A row that [join] accepts has the folder name and four cells of text. *)
Lemma row_cells_Ok folder d cells :
  row_cells folder d = Ok cells ↔
  ∃ descr vers language creator,
    descr_cell d = Ok (VStr descr) ∧ vers_cell d = Ok (VStr vers) ∧
    get d "Language" (VStr "") = VStr language ∧
    get d "Creator" (VStr "") = VStr creator ∧
    cells = [folder; descr; vers; language; creator].
Proof.
  unfold row_cells, row. rewrite bind_Ok. setoid_rewrite bind_Ok.
  setoid_rewrite bind_Ok. setoid_rewrite texts_Ok. split.
  - intros (r & (dc & Hdc & vc & Hvc & [= <-]) & Hr).
    destruct cells as [|c0 [|c1 [|c2 [|c3 [|c4 [|]]]]]]; simplify_eq/=.
    eauto 10.
  - intros (descr & vers & language & creator & Hdc & Hvc & Hl & Hc & ->).
    eexists. split; [eauto 10|]. simpl. by rewrite Hl, Hc.
Qed.

Lemma row_line_Ok folder d line :
  row_line folder d = Ok line ↔
  ∃ cells, row_cells folder d = Ok cells ∧
    line = "| " +:+ String.concat " | " cells +:+ " |" +:+ nl.
Proof.
  unfold row_line, row_cells, join.
  destruct (row folder d) as [r|e]; result_simpl.
  2: { split; [done|]. by intros (? & ? & ?). }
  destruct (texts r) as [ss|e]; result_simpl.
  - split; [intros [= <-]; eauto|]. by intros (? & [= <-] & ->).
  - split; [done|]. by intros (? & ? & ?).
Qed.

(** ** Dictionaries *)

Section dict_facts.
Context {V : Type}.
Implicit Types (d : Dict.t V) (k : string) (v : V).

Lemma dict_get_set d k k' v :
  Dict.get k' (Dict.set k v d) =
  if decide (k' = k) then Some v else Dict.get k' d.
Proof.
  induction d as [|[k0 v0] d IH]; simpl.
  - by repeat case_decide.
  - repeat (case_decide; simpl; simplify_eq); try done.
Qed.

Lemma dict_get_None d k : Dict.get k d = None ↔ k ∉ Dict.keys d.
Proof.
  unfold Dict.keys. induction d as [|[k0 v0] d IH]; simpl.
  - split; [|done]. intros _. apply not_elem_of_nil.
  - rewrite not_elem_of_cons. case_decide; [|tauto].
    split; [done|tauto].
Qed.

Lemma dict_get_Some d k v : Dict.get k d = Some v → (k, v) ∈ d.
Proof.
  induction d as [|[k0 v0] d IH]; simpl; [done|].
  case_decide.
  - intros [= ->]. subst. left.
  - intros. right. auto.
Qed.

Lemma dict_get_elem_of d k v : Dict.wf d → (k, v) ∈ d → Dict.get k d = Some v.
Proof.
  unfold Dict.wf, Dict.keys.
  induction d as [|[k0 v0] d IH]; simpl; [by intros _ ?%elem_of_nil|].
  intros [Hk0 Hd]%NoDup_cons [[= -> ->]|Hin]%elem_of_cons.
  - by rewrite decide_True.
  - rewrite decide_False; [auto|]. intros ->. apply Hk0.
    apply list_elem_of_fmap. by exists (k0, v).
Qed.

Lemma dict_wf_set d k v : Dict.wf d → Dict.wf (Dict.set k v d).
Proof.
  unfold Dict.wf, Dict.keys.
  induction d as [|[k0 v0] d IH]; simpl.
  - intros _. apply NoDup_singleton.
  - intros [Hk0 Hd]%NoDup_cons. case_decide; subst; simpl.
    + by apply NoDup_cons.
    + apply NoDup_cons. split; [|auto].
      apply dict_get_None. rewrite dict_get_set, decide_False by done.
      by apply dict_get_None.
Qed.

(** Lookup does not depend on the order of insertion. *)
Lemma dict_get_perm d d' k : Dict.wf d → d' ≡ₚ d → Dict.get k d' = Dict.get k d.
Proof.
  intros Hwf Hperm.
  assert (Dict.wf d') as Hwf'.
  { unfold Dict.wf, Dict.keys in *. by rewrite Hperm. }
  destruct (Dict.get k d) as [v|] eqn:Hget.
  - apply dict_get_elem_of; [done|]. rewrite Hperm.
    by apply dict_get_Some.
  - apply dict_get_None. apply dict_get_None in Hget.
    unfold Dict.keys in *. by rewrite Hperm.
Qed.
End dict_facts.

(** ** Sorting *)

Lemma sorted_Permutation l : sorted l ≡ₚ l.
Proof. apply merge_sort_Permutation. Qed.

Lemma sorted_StronglySorted l : StronglySorted String.le (sorted l).
Proof. apply StronglySorted_merge_sort; apply _. Qed.

(** The result of [sorted] is the same for every order of its argument. *)
Lemma sorted_perm_eq l l' : l ≡ₚ l' → sorted l = sorted l'.
Proof.
  intros Hperm. apply (StronglySorted_unique String.le).
  - apply sorted_StronglySorted.
  - apply sorted_StronglySorted.
  - by rewrite !sorted_Permutation.
Qed.

Lemma le_ne_ltb x y : String.le x y → x ≠ y → String.ltb x y = true.
Proof.
  unfold String.le, String.leb, String.ltb.
  destruct (String.compare x y) eqn:Hcmp; try done.
  intros _ []. by apply String.compare_eq_iff.
Qed.

Lemma sorted_ascending l : NoDup l → ascending (sorted l).
Proof.
  intros Hnodup. rewrite <-sorted_Permutation in Hnodup.
  unfold ascending.
  induction (sorted_StronglySorted l) as [|x l' Hl' IH Hx]; [constructor|].
  apply NoDup_cons in Hnodup as [Hx' Hnodup]. constructor; [auto|].
  apply Forall_forall. intros y Hy.
  apply le_ne_ltb; [by eapply Forall_forall in Hx|].
  by intros ->.
Qed.

(** ** The columns *)

Lemma elem_of_key_set (l : list record) (acc : gset string) key :
  key ∈ foldl (λ acc data, acc ∪ dom data) acc l ↔
  key ∈ acc ∨ Exists (λ data : record, is_Some (data !! key)) l.
Proof.
  revert acc. induction l as [|data l IH]; intros acc; simpl.
  - rewrite Exists_nil. tauto.
  - rewrite IH, Exists_cons, elem_of_union, elem_of_dom. tauto.
Qed.

Lemma elem_of_all_keys folders_data key :
  key ∈ all_keys folders_data ↔ occurs folders_data key.
Proof.
  unfold all_keys, occurs. rewrite sorted_Permutation, elem_of_elements.
  rewrite elem_of_key_set, elem_of_empty. tauto.
Qed.

Lemma ordered_keys_filter folders_data :
  ordered_keys folders_data = filter (occurs folders_data) desired_order.
Proof.
  unfold ordered_keys. apply list_filter_iff. intros key.
  apply elem_of_all_keys.
Qed.

Lemma all_keys_perm fd fd' : fd' ≡ₚ fd → all_keys fd' = all_keys fd.
Proof.
  intros Hperm. unfold all_keys. f_equal. f_equal. apply set_eq. intros key.
  rewrite !elem_of_key_set. unfold Dict.values. by rewrite Hperm.
Qed.

(** ** The rows *)

Lemma rows_loop_Ok fd folders acc lines :
  rows_loop fd folders acc = Ok lines ↔
  ∃ rows, lines = acc ++ rows ∧ Forall2 (line_of fd) folders rows.
Proof.
  revert acc. induction folders as [|folder rest IH]; intros acc; simpl.
  - split.
    + intros [= <-]. exists []. by rewrite app_nil_r.
    + intros (rows & -> & ->%Forall2_nil_inv_l). by rewrite app_nil_r.
  - rewrite bind_Ok. setoid_rewrite bind_Ok. setoid_rewrite IH.
    unfold Dict.getitem. split.
    + intros (d & Hd & line & Hline & rows & -> & Hrows).
      destruct (Dict.get folder fd) as [d'|] eqn:Hget; simplify_eq.
      apply row_line_Ok in Hline as (cells & Hcells & ->).
      eexists (_ :: rows). rewrite <-app_assoc. split; [done|].
      constructor; [|done]. by exists d, cells.
    + intros (rows & -> & Hrows).
      apply Forall2_cons_inv_l in Hrows
        as (line & rows' & (d & cells & Hget & Hcells & ->) & Hrows' & ->).
      exists d. rewrite Hget. split; [done|]. eexists. split.
      { apply row_line_Ok. eauto. }
      exists rows'. by rewrite <-app_assoc.
Qed.

Lemma new_table_Ok fd lines :
  new_table fd = Ok lines ↔
  ∃ rows, lines = header_line fd :: divider_line fd :: rows ∧
    Forall2 (line_of fd) (sorted_folders fd) rows.
Proof. unfold new_table. by rewrite rows_loop_Ok. Qed.

Lemma rows_loop_ext fd fd' folders acc :
  (∀ folder, Dict.get folder fd' = Dict.get folder fd) →
  rows_loop fd' folders acc = rows_loop fd folders acc.
Proof.
  intros Hget. revert acc.
  induction folders as [|folder rest IH]; intros acc; simpl; [done|].
  unfold Dict.getitem. rewrite Hget.
  destruct (Dict.get folder fd) as [d|]; result_simpl; [|done].
  destruct (row_line folder d); result_simpl; [|done]. apply IH.
Qed.

(** The table does not depend on the order in which the folders were put
    into the mapping. *)
Lemma new_table_perm fd fd' :
  Dict.wf fd → fd' ≡ₚ fd → new_table fd' = new_table fd.
Proof.
  intros Hwf Hperm. unfold new_table.
  assert (header_line fd' = header_line fd) as ->.
  { unfold header_line, headers, ordered_keys.
    by rewrite (all_keys_perm fd fd'). }
  assert (divider_line fd' = divider_line fd) as ->.
  { unfold divider_line, dividers, headers, ordered_keys.
    by rewrite (all_keys_perm fd fd'). }
  assert (sorted_folders fd' = sorted_folders fd) as ->.
  { unfold sorted_folders, Dict.keys. apply sorted_perm_eq. by rewrite Hperm. }
  apply rows_loop_ext. intros folder. by apply dict_get_perm.
Qed.

Lemma printable_get d key :
  printable d →
  key ∈ ["Description"; "Editor"; "Status"; "Language"; "Creator"] →
  ∃ s, get d key (VStr "") = VStr s.
Proof.
  intros Hd Hkey. unfold get.
  destruct (d !! key) as [v|] eqn:Hv; simpl; [by eapply Hd|by eexists].
Qed.

Lemma row_cells_printable folder d :
  printable d ↔ ∃ cells, row_cells folder d = Ok cells.
Proof.
  split.
  - intros Hd.
    destruct (printable_get d "Description" Hd) as [descr Hdescr];
      [set_solver|].
    destruct (printable_get d "Language" Hd) as [language Hlanguage];
      [set_solver|].
    destruct (printable_get d "Creator" Hd) as [creator Hcreator];
      [set_solver|].
    assert (∃ dc, descr_cell d = Ok (VStr dc)) as [dc Hdc].
    { setoid_rewrite descr_cell_Ok.
      destruct (d !! "Editor") as [v|] eqn:Hed.
      - destruct (Hd "Editor" v) as [e ->]; [set_solver|done|]. eauto 10.
      - rewrite Hdescr. by eexists. }
    assert (∃ vc, vers_cell d = Ok (VStr vc)) as [vc Hvc].
    { setoid_rewrite vers_cell_Ok.
      destruct (d !! "Status") as [v|] eqn:Hst.
      - destruct (Hd "Status" v) as [status ->]; [set_solver|done|]. eauto 10.
      - by eexists. }
    eexists. apply row_cells_Ok. eauto 10.
  - intros (cells & (descr & vers & language & creator & Hdc%descr_cell_Ok
      & Hvc%vers_cell_Ok & Hl & Hc & _)%row_cells_Ok) key v Hkey Hv.
    unfold get in *.
    repeat (apply elem_of_cons in Hkey as [->|Hkey]);
      [..|by apply elem_of_nil in Hkey]; rewrite ?Hv in *; simpl in *.
    + destruct (d !! "Editor"); [|by eauto].
      destruct Hdc as (? & ? & ? & _). eauto.
    + destruct Hdc as (? & ? & ? & ? & _). eauto.
    + destruct Hvc as (? & ? & _). eauto.
    + eauto.
    + eauto.
Qed.

(** ** Text appended to a file *)

Lemma app_empty_r (s : string) : s +:+ "" = s.
Proof.
  induction s as [|a s IH]; [done|].
  change (String a (s +:+ "") = String a s). by rewrite IH.
Qed.

Lemma app_assoc_text (s1 s2 s3 : string) :
  (s1 +:+ s2) +:+ s3 = s1 +:+ s2 +:+ s3.
Proof.
  induction s1 as [|a s1 IH]; [done|].
  change (String a ((s1 +:+ s2) +:+ s3) = String a (s1 +:+ s2 +:+ s3)).
  by rewrite IH.
Qed.

Lemma concat_empty_cons (line : string) (lines : list string) :
  String.concat "" (line :: lines) = line +:+ String.concat "" lines.
Proof. destruct lines; simpl; [by rewrite app_empty_r|done]. Qed.

(** ** The file system *)

Lemma dict_set_set {V} (d : Dict.t V) k v v' :
  Dict.set k v' (Dict.set k v d) = Dict.set k v' d.
Proof.
  induction d as [|[k0 v0] d IH]; simpl.
  - by rewrite decide_True.
  - case_decide; simpl.
    + by rewrite decide_True.
    + rewrite decide_False by done. by rewrite IH.
Qed.

Lemma lookup_cons name p entries :
  FS.lookup (name :: p) (FS.Dir entries) =
  Dict.get name entries ≫= FS.lookup p.
Proof. done. Qed.

Lemma store_single name c entries :
  FS.store [name] c (FS.Dir entries) =
  match Dict.get name entries with
  | Some (FS.Dir _) => None
  | _ => Some (FS.Dir (Dict.set name (FS.File c) entries))
  end.
Proof. done. Qed.

Lemma store_cons name name' p c entries :
  FS.store (name :: name' :: p) c (FS.Dir entries) =
  n' ← Dict.get name entries;
  n'' ← FS.store (name' :: p) c n';
  Some (FS.Dir (Dict.set name n'' entries)).
Proof. done. Qed.

(** A file that was stored is read back. *)
Lemma store_lookup p c n n' :
  FS.store p c n = Some n' → FS.lookup p n' = Some (FS.File c).
Proof.
  revert n n'. induction p as [|name p IH]; intros n n' Hstore; [done|].
  destruct n as [|entries]; [done|]. destruct p as [|name' p].
  - rewrite store_single in Hstore.
    destruct (Dict.get name entries) as [[c0|entries0]|]; simplify_eq;
      by rewrite lookup_cons, dict_get_set, decide_True.
  - rewrite store_cons in Hstore.
    apply bind_Some in Hstore as (n1 & Hn1 & Hstore).
    apply bind_Some in Hstore as (n2 & Hn2 & [= <-]).
    rewrite lookup_cons, dict_get_set, decide_True by done.
    by eapply IH.
Qed.

(** A file that exists can be overwritten. *)
Lemma store_is_Some p c c0 n :
  p ≠ [] → FS.lookup p n = Some (FS.File c0) → is_Some (FS.store p c n).
Proof.
  revert n. induction p as [|name p IH]; intros n Hp Hlookup; [done|].
  destruct n as [|entries]; [done|]. rewrite lookup_cons in Hlookup.
  apply bind_Some in Hlookup as (n1 & Hn1 & Hlookup).
  destruct p as [|name' p].
  - simpl in Hlookup. simplify_eq. rewrite store_single, Hn1. eauto.
  - rewrite store_cons. destruct (IH n1) as [n2 Hn2]; [done..|].
    exists (FS.Dir (Dict.set name n2 entries)).
    apply bind_Some. exists n1. split; [done|].
    apply bind_Some. by exists n2.
Qed.

(** ** Input and output *)

Lemma io_bind_unfold {A B} (m : io A) (f : A → io B) st :
  (m ≫= f) st =
  match m st with
  | (Ok a, st') => f a st'
  | (Raise e, st') => (Raise e, st')
  end.
Proof. done. Qed.

Lemma open_w_Ok p st st' :
  open_w p st = (Ok (), st') → FS.lookup p st' = Some (FS.File "").
Proof.
  unfold open_w. destruct (FS.store p "" st) as [n|] eqn:Hstore; [|done].
  intros [= <-]. by eapply store_lookup.
Qed.

Lemma open_w_Raise p st st' e : open_w p st = (Raise e, st') → st' = st.
Proof.
  unfold open_w. destruct (FS.store p "" st); [done|]. by intros [= _ <-].
Qed.

(** Writing to a file that is open appends to it, and does not fail. *)
Lemma write_append p s c st :
  p ≠ [] → FS.lookup p st = Some (FS.File c) →
  ∃ st', write p s st = (Ok (), st') ∧
    FS.lookup p st' = Some (FS.File (c +:+ s)).
Proof.
  intros Hp Hlookup. unfold write. rewrite Hlookup.
  destruct (store_is_Some p (c +:+ s) c st) as [st' Hstore]; [done..|].
  rewrite Hstore. eauto using store_lookup.
Qed.

Lemma writelines_append p lines c st :
  p ≠ [] → FS.lookup p st = Some (FS.File c) →
  ∃ st', writelines p lines st = (Ok (), st') ∧
    FS.lookup p st' = Some (FS.File (c +:+ String.concat "" lines)).
Proof.
  intros Hp. revert c st.
  induction lines as [|line lines IH]; intros c st Hlookup.
  - exists st. by rewrite app_empty_r.
  - destruct (write_append p line c st) as (st1 & Hwrite & Hlookup1);
      [done..|].
    destruct (IH _ _ Hlookup1) as (st' & Hlines & Hlookup').
    exists st'. cbn [writelines]. rewrite io_bind_unfold, Hwrite.
    by rewrite concat_empty_cons, <-app_assoc_text.
Qed.

(** [update_readme] either writes the whole file or leaves the tree as it
    was. *)
Lemma update_readme_Ok fd st st' :
  update_readme fd st = (Ok (), st') ↔
  ∃ lines st0, new_table fd = Ok lines ∧
    open_w readme_path st = (Ok (), st0) ∧
    (write readme_path ("# Releases  " +:+ nl) ≫= λ _,
       writelines readme_path lines) st0 = (Ok (), st').
Proof.
  unfold update_readme. rewrite io_bind_unfold. unfold pure at 1.
  destruct (new_table fd) as [lines|e].
  2: { split; [done|]. by intros (? & ? & ? & _). }
  rewrite io_bind_unfold.
  destruct (open_w readme_path st) as [[[]|e] st0].
  2: { split; [done|]. by intros (? & ? & ? & ? & _). }
  split; [eauto 10|]. by intros (? & ? & [= <-] & [= <-] & ?).
Qed.

Lemma update_readme_content fd st st' :
  update_readme fd st = (Ok (), st') →
  ∃ lines, new_table fd = Ok lines ∧
    FS.lookup readme_path st' =
      Some (FS.File ("# Releases  " +:+ nl +:+ String.concat "" lines)).
Proof.
  intros (lines & st0 & Htable & Hopen%open_w_Ok & Hwrite)%update_readme_Ok.
  exists lines. split; [done|]. rewrite io_bind_unfold in Hwrite.
  destruct (write_append readme_path ("# Releases  " +:+ nl) "" st0)
    as (st1 & Hw & Hlookup1); [done..|].
  rewrite Hw in Hwrite.
  destruct (writelines_append readme_path lines _ st1 ltac:(done) Hlookup1)
    as (st2 & Hlines & Hlookup2).
  rewrite Hlines in Hwrite. simplify_eq. by rewrite Hlookup2.
Qed.

Lemma update_readme_Raise fd st st' e :
  update_readme fd st = (Raise e, st') → st' = st.
Proof.
  unfold update_readme. rewrite io_bind_unfold. unfold pure at 1.
  destruct (new_table fd) as [lines|e']; [|by intros [= _ <-]].
  rewrite io_bind_unfold.
  destruct (open_w readme_path st) as [[[]|e'] st0] eqn:Hopen.
  2: { apply open_w_Raise in Hopen. by intros [= _ <-]. }
  apply open_w_Ok in Hopen. rewrite io_bind_unfold.
  destruct (write_append readme_path ("# Releases  " +:+ nl) "" st0)
    as (st1 & -> & Hlookup1); [done..|].
  destruct (writelines_append readme_path lines _ st1 ltac:(done) Hlookup1)
    as (st2 & -> & _).
  done.
Qed.

(** ** Reading the folders *)

Section script_facts.
Variable safe_load : string → result document.

Lemma read_data_state file_path st : (read_data safe_load file_path st).2 = st.
Proof.
  unfold read_data, read_text. rewrite io_bind_unfold.
  by destruct (FS.lookup file_path st) as [[]|].
Qed.

Lemma scan_state folder_path files data st :
  (scan safe_load folder_path files data st).2 = st.
Proof.
  induction files as [|file rest IH]; simpl; [done|].
  destruct (is_metadata file); [|done]. rewrite io_bind_unfold.
  pose proof (read_data_state (path_join folder_path file) st) as Hst.
  by destruct (read_data _ _ _) as [[] ?]; simpl in *; subst.
Qed.

Lemma scan_no_metadata folder_path files data st :
  no_metadata files → scan safe_load folder_path files data st = (Ok data, st).
Proof.
  induction 1 as [|file rest Hfile _ IH]; simpl; [done|]. by rewrite Hfile.
Qed.

Lemma scan_first folder_path skipped file rest data st :
  no_metadata skipped → is_metadata file = true →
  scan safe_load folder_path (skipped ++ file :: rest) data st =
  (read_data safe_load (path_join folder_path file) ≫= λ file_data,
     pure (update data file_data)) st.
Proof.
  intros Hskipped Hfile.
  induction Hskipped as [|file' skipped Hfile' _ IH]; simpl.
  - by rewrite Hfile.
  - by rewrite Hfile'.
Qed.

(** One turn of the outer loop. *)
Lemma folders_loop_cons folder rest acc st :
  folders_loop safe_load (folder :: rest) acc st =
  match FS.lookup (path_join base_folder folder) st with
  | Some (FS.Dir entries) =>
      match scan safe_load (path_join base_folder folder)
              (Dict.keys entries) ∅ st with
      | (Ok data, _) =>
          folders_loop safe_load rest (Dict.set folder data acc) st
      | (Raise e, _) => (Raise e, st)
      end
  | _ => folders_loop safe_load rest acc st
  end.
Proof.
  cbn [folders_loop]. rewrite io_bind_unfold. unfold isdir.
  destruct (FS.lookup (path_join base_folder folder) st)
    as [[content|entries]|] eqn:Hlookup; try done.
  rewrite io_bind_unfold. unfold listdir. rewrite Hlookup.
  rewrite io_bind_unfold.
  pose proof (scan_state (path_join base_folder folder)
                (Dict.keys entries) ∅ st) as Hst.
  by destruct (scan _ _ _ _ _) as [[] ?]; simpl in *; subst.
Qed.

Lemma folders_loop_state entries acc st :
  (folders_loop safe_load entries acc st).2 = st.
Proof.
  revert acc. induction entries as [|folder rest IH]; intros acc; [done|].
  rewrite folders_loop_cons.
  destruct (FS.lookup _ st) as [[|entries]|]; try done.
  by destruct (scan _ _ _ _ _) as [[] ?].
Qed.

Lemma folders_loop_app l1 l2 acc st :
  folders_loop safe_load (l1 ++ l2) acc st =
  match folders_loop safe_load l1 acc st with
  | (Ok folders_data, _) => folders_loop safe_load l2 folders_data st
  | (Raise e, _) => (Raise e, st)
  end.
Proof.
  revert acc. induction l1 as [|folder l1 IH]; intros acc; [done|].
  rewrite <-app_comm_cons, !folders_loop_cons.
  destruct (FS.lookup _ st) as [[|entries]|]; try done.
  by destruct (scan _ _ _ _ _) as [[] ?].
Qed.

Lemma folders_loop_parse_fails folder rest acc st e :
  parse_fails safe_load st folder e →
  folders_loop safe_load (folder :: rest) acc st = (Raise e, st).
Proof.
  intros (entries & skipped & file & rest' & content & Hfolder & Hkeys
          & Hskipped & Hfile & Hcontent & Hload).
  rewrite folders_loop_cons, Hfolder, Hkeys, scan_first by done.
  rewrite io_bind_unfold. unfold read_data. rewrite io_bind_unfold.
  unfold read_text. rewrite Hcontent. unfold pure. by rewrite Hload.
Qed.

(** A folder whose metadata does not parse stops the loop, at that folder
    or before. *)
Lemma folders_loop_Raise entries folder acc st e :
  folder ∈ entries → parse_fails safe_load st folder e →
  ∃ e', folders_loop safe_load entries acc st = (Raise e', st).
Proof.
  intros [l1 [l2 ->]]%list_elem_of_split Hfails.
  rewrite folders_loop_app.
  pose proof (folders_loop_state l1 acc st) as Hst.
  destruct (folders_loop safe_load l1 acc st) as [[fd|e'] st'];
    simpl in Hst; subst; [|eauto].
  rewrite (folders_loop_parse_fails _ _ _ _ e); eauto.
Qed.

(** The record of a folder without a metadata file. *)
Lemma folders_loop_empty entries folder files acc st folders_data :
  FS.lookup (path_join base_folder folder) st = Some (FS.Dir files) →
  no_metadata (Dict.keys files) →
  folder ∈ entries ∨ Dict.get folder acc = Some ∅ →
  folders_loop safe_load entries acc st = (Ok folders_data, st) →
  Dict.get folder folders_data = Some ∅.
Proof.
  intros Hfolder Hfiles. revert acc.
  induction entries as [|folder' rest IH]; intros acc Hin.
  - destruct Hin as [[]%elem_of_nil|Hacc]. by intros [= <-].
  - rewrite folders_loop_cons. destruct (decide (folder' = folder)) as [->|].
    + rewrite Hfolder, scan_no_metadata by done.
      apply IH. right. by rewrite dict_get_set, decide_True.
    + assert (folder ∈ rest ∨ Dict.get folder acc = Some ∅) as Hin'.
      { destruct Hin as [[]%elem_of_cons|]; by auto. }
      destruct (FS.lookup (path_join base_folder folder') st)
        as [[|entries]|]; try by apply IH.
      destruct (scan _ _ _ _ _) as [[data|] ?]; [|done].
      apply IH. destruct Hin' as [|Hacc]; [by left|right].
      by rewrite dict_get_set, decide_False.
Qed.

Lemma main_unfold st entries :
  FS.lookup base_folder st = Some (FS.Dir entries) →
  main safe_load st =
  match folders_loop safe_load (Dict.keys entries) Dict.empty st with
  | (Ok folders_data, _) => update_readme folders_data st
  | (Raise e, _) => (Raise e, st)
  end.
Proof.
  intros Hbase. unfold main. rewrite io_bind_unfold. unfold listdir.
  rewrite Hbase, io_bind_unfold.
  pose proof (folders_loop_state (Dict.keys entries) Dict.empty st) as Hst.
  by destruct (folders_loop _ _ _ _) as [[] ?]; simpl in *; subst.
Qed.

End script_facts.

(** * The claims *)

(** C1: for the two folders [b] (Description "Tool B", Version 2, Language
    "Go") and [a] (Description "Tool A", Version "1.0", Creator "X", Editor
    "http://e"), in either order of insertion, the table has the row of [a]
    before the row of [b]; the Description cell of [a] is
    [Tool A<br>[Web editor](http://e)], its Creator cell is [X], and the
    Creator cell of [b] is the empty text. *)
Theorem example_table :
  new_table fd_ab = Ok lines_ab ∧
  new_table fd_ba = Ok lines_ab ∧
  row_cells "a" d_a =
    Ok ["a"; "Tool A<br>[Web editor](http://e)"; "1.0"; ""; "X"] ∧
  row_cells "b" d_b = Ok ["b"; "Tool B"; "2"; "Go"; ""].
Proof. by vm_compute. Qed.

(** C2: the header is the folder-name column followed by exactly those keys
    of [Description; Version; Language; Creator], in that order, that occur
    in the record of at least one folder; a key of the list that occurs in
    no record is left out, and no other key is ever a column. *)
Theorem header_columns folders_data :
  headers folders_data =
    "Folder Name" :: filter (occurs folders_data) desired_order ∧
  header_line folders_data =
    "| " +:+
    String.concat " | "
      ("Folder Name" :: filter (occurs folders_data) desired_order) +:+
    " |" +:+ nl ∧
  (∀ lines, new_table folders_data = Ok lines →
     head lines = Some (header_line folders_data)) ∧
  ordered_keys folders_data `sublist_of` desired_order ∧
  ∀ key, key ∈ ordered_keys folders_data ↔
    key ∈ desired_order ∧ occurs folders_data key.
Proof.
  split_and!.
  - unfold headers. by rewrite ordered_keys_filter.
  - unfold header_line, headers. by rewrite ordered_keys_filter.
  - by intros lines (rows & -> & _)%new_table_Ok.
  - rewrite ordered_keys_filter. apply sublist_filter.
  - intros key. rewrite ordered_keys_filter, list_elem_of_filter. tauto.
Qed.

(** C3: the data rows follow the folder names in strictly ascending order
    of text, whatever the order in which the folders were put into the
    mapping. *)
Theorem rows_follow_sorted_folders folders_data lines :
  Dict.wf folders_data →
  new_table folders_data = Ok lines →
  ∃ rows,
    lines = header_line folders_data :: divider_line folders_data :: rows ∧
    Forall2 (line_of folders_data) (sorted_folders folders_data) rows ∧
    sorted_folders folders_data ≡ₚ Dict.keys folders_data ∧
    ascending (sorted_folders folders_data) ∧
    ∀ folders_data', folders_data' ≡ₚ folders_data →
      new_table folders_data' = Ok lines.
Proof.
  intros Hwf Hlines.
  pose proof Hlines as (rows & -> & Hrows)%new_table_Ok.
  exists rows. split_and!; try done.
  - apply sorted_Permutation.
  - by apply sorted_ascending.
  - intros fd' Hperm. by rewrite (new_table_perm folders_data).
Qed.

(** C4: in a row of the table, the Description cell is the Description
    value of the record (the empty text when there is none), followed by
    [<br>[Web editor](v)] when the record has the key Editor with value
    [v], and by nothing when it has no such key. *)
Theorem description_cell folder d cells :
  row_cells folder d = Ok cells →
  ∃ descr, get d "Description" (VStr "") = VStr descr ∧
    match d !! "Editor" with
    | Some v => ∃ e, v = VStr e ∧
        cells !! 1 = Some (descr +:+ "<br>[Web editor](" +:+ e +:+ ")")
    | None => cells !! 1 = Some descr
    end.
Proof.
  intros (dc & vers & language & creator & Hdc%descr_cell_Ok & _ & _ & _
          & ->)%row_cells_Ok.
  destruct (d !! "Editor") as [v|].
  - destruct Hdc as (descr & e & Hdescr & -> & [= ->]). eauto.
  - exists dc. by simplify_eq/=.
Qed.

(** C5: in a row of the table, the Version cell is [str] of the Version
    value of the record (of the empty text when there is none), followed by
    [<br>] and the Status value when the record has the key Status, and by
    nothing when it has no such key. *)
Theorem version_cell folder d cells :
  row_cells folder d = Ok cells →
  match d !! "Status" with
  | Some v => ∃ status, v = VStr status ∧
      cells !! 2 =
        Some (str (get d "Version" (VStr "")) +:+ "<br>" +:+ status)
  | None => cells !! 2 = Some (str (get d "Version" (VStr "")))
  end.
Proof.
  intros (descr & vc & language & creator & _ & Hvc%vers_cell_Ok & _ & _
          & ->)%row_cells_Ok.
  destruct (d !! "Status") as [v|].
  - destruct Hvc as (status & -> & [= ->]). eauto.
  - by simplify_eq/=.
Qed.

(** C6: the divider row has, for each column, a run of dashes as long as
    the header text of that column, whatever the cells below it hold. *)
Theorem divider_matches_headers folders_data :
  divider_line folders_data =
    "| " +:+ String.concat " | " (dividers folders_data) +:+ " |" +:+ nl ∧
  Forall2 (λ header dashes,
      String.length dashes = String.length header ∧
      ∀ i, i < String.length header → String.get i dashes = Some "-"%char)
    (headers folders_data) (dividers folders_data).
Proof.
  split; [done|]. unfold dividers. apply Forall2_fmap_r.
  apply Forall_Forall2_diag, Forall_forall. intros header _.
  split; [apply length_mul_dash|]. intros i Hi. by apply get_mul_dash.
Qed.

(** C10: a data row has five cells, the folder name and one for each of
    Description, Version, Language and Creator, whichever keys occur; when
    one of these keys occurs in no record, the header and the divider have
    fewer columns than the rows have cells. *)
Theorem rows_have_five_cells folders_data :
  (∀ folder d r, row folder d = Ok r → length r = 5) ∧
  (∀ lines, new_table folders_data = Ok lines →
     ∃ rows,
       lines = header_line folders_data :: divider_line folders_data :: rows ∧
       Forall (λ line, ∃ cells, length cells = 5 ∧
         line = "| " +:+ String.concat " | " cells +:+ " |" +:+ nl) rows) ∧
  length (dividers folders_data) = length (headers folders_data) ∧
  (∀ key, key ∈ desired_order → ¬ occurs folders_data key →
     (key ∉ headers folders_data) ∧ length (headers folders_data) < 5).
Proof.
  split_and!.
  - intros folder d r. unfold row. rewrite bind_Ok. setoid_rewrite bind_Ok.
    by intros (descr & _ & vers & _ & [= <-]).
  - intros lines (rows & -> & Hrows)%new_table_Ok. exists rows.
    split; [done|]. eapply Forall2_Forall_r; [done|].
    apply Forall_forall.
    intros folder _ line (d & cells & _ & Hcells%row_cells_Ok & ->).
    exists cells. split; [|done].
    by destruct Hcells as (? & ? & ? & ? & _ & _ & _ & _ & ->).
  - unfold dividers. by rewrite length_fmap.
  - intros key Hkey Hocc. unfold headers. rewrite ordered_keys_filter. split.
    + rewrite not_elem_of_cons, list_elem_of_filter. split; [|tauto].
      intros ->. unfold desired_order in Hkey.
      rewrite !elem_of_cons, elem_of_nil in Hkey.
      by destruct Hkey as [?|[?|[?|[?|[]]]]].
    + pose proof (length_filter_lt (occurs folders_data) desired_order key
                    Hkey Hocc) as Hlt.
      simpl in *. lia.
Qed.

Lemma row_cells_empty folder :
  row_cells folder ∅ = Ok [folder; ""; ""; ""; ""].
Proof. done. Qed.

(** C8: after a run of [update_readme] that succeeds, whatever the file
    held before, [releases/README.md] holds the title line [# Releases  ]
    and a line break, then the header line, the divider line and the data
    rows in order, and nothing else. *)
Theorem readme_is_replaced folders_data st st' :
  update_readme folders_data st = (Ok (), st') →
  ∃ rows,
    Forall2 (line_of folders_data) (sorted_folders folders_data) rows ∧
    FS.lookup readme_path st' =
      Some (FS.File ("# Releases  " +:+ nl +:+ header_line folders_data +:+
                     divider_line folders_data +:+ String.concat "" rows)).
Proof.
  intros (lines & (rows & -> & Hrows)%new_table_Ok & ->)%update_readme_content.
  exists rows. split; [done|]. by rewrite !concat_empty_cons.
Qed.

Section script_claims.
Variable safe_load : string → result document.

(** The mapping that [main] builds has each folder once. *)
Lemma folders_loop_wf entries acc st folders_data st' :
  Dict.wf acc →
  folders_loop safe_load entries acc st = (Ok folders_data, st') →
  Dict.wf folders_data.
Proof.
  revert acc. induction entries as [|folder rest IH]; intros acc Hacc.
  - by intros [= <- _].
  - rewrite folders_loop_cons.
    destruct (FS.lookup _ st) as [[|files]|]; try by apply IH.
    destruct (scan _ _ _ _ _) as [[data|] ?]; [|done].
    by apply IH, dict_wf_set.
Qed.

(** C7: a folder that holds no file ending in [.yaml] or [.yml] gets the
    empty record, and its row is the folder name followed by four empty
    cells. *)
Theorem no_metadata_gives_empty_row st entries folder files :
  FS.lookup base_folder st = Some (FS.Dir entries) →
  folder ∈ Dict.keys entries →
  FS.lookup (path_join base_folder folder) st = Some (FS.Dir files) →
  no_metadata (Dict.keys files) →
  scan safe_load (path_join base_folder folder) (Dict.keys files) ∅ st
    = (Ok ∅, st) ∧
  row_cells folder ∅ = Ok [folder; ""; ""; ""; ""] ∧
  ∀ folders_data,
    folders_loop safe_load (Dict.keys entries) Dict.empty st
      = (Ok folders_data, st) →
    Dict.get folder folders_data = Some ∅ ∧
    ∀ lines, new_table folders_data = Ok lines →
      ("| " +:+ folder +:+ " |  |  |  |  |" +:+ nl) ∈ lines.
Proof.
  intros Hbase Hfolder Hfiles Hnone. split_and!.
  - by apply scan_no_metadata.
  - apply row_cells_empty.
  - intros fd Hloop.
    assert (Dict.get folder fd = Some ∅) as Hget.
    { eapply folders_loop_empty; eauto. }
    split; [done|]. intros lines (rows & -> & Hrows)%new_table_Ok.
    assert (folder ∈ sorted_folders fd) as [i Hi]%list_elem_of_lookup.
    { unfold sorted_folders. rewrite sorted_Permutation.
      apply dec_stable. intros Hnot%dict_get_None. congruence. }
    destruct (Forall2_lookup_l _ _ _ _ _ Hrows Hi)
      as (line & Hline%list_elem_of_lookup_2
          & d & cells & Hd & Hcells & ->).
    rewrite Hget in Hd. injection Hd as <-.
    rewrite row_cells_empty in Hcells. injection Hcells as <-.
    do 2 apply list_elem_of_further.
    change (String.concat " | " [folder; ""; ""; ""; ""])
      with (folder +:+ " |  |  |  | ") in Hline.
    by rewrite app_assoc_text in Hline.
Qed.

(** C9: when the metadata file of a folder does not parse, the run ends
    with an exception and no file is changed; the exception is that of the
    parser when every folder listed before was read. *)
Theorem parse_failure_aborts st entries folder e :
  FS.lookup base_folder st = Some (FS.Dir entries) →
  folder ∈ Dict.keys entries →
  parse_fails safe_load st folder e →
  (∃ e', main safe_load st = (Raise e', st)) ∧
  ∀ before rest folders_data,
    Dict.keys entries = before ++ folder :: rest →
    folders_loop safe_load before Dict.empty st = (Ok folders_data, st) →
    main safe_load st = (Raise e, st).
Proof.
  intros Hbase Hfolder Hfails. rewrite (main_unfold _ _ _ Hbase). split.
  - destruct (folders_loop_Raise safe_load _ _ Dict.empty _ _
                Hfolder Hfails) as [e' ->]. eauto.
  - intros before rest fd -> Hbefore.
    rewrite folders_loop_app, Hbefore.
    by rewrite (folders_loop_parse_fails _ _ _ _ _ e).
Qed.
End script_claims.

(** * The claims on the example *)

Lemma header_columns_witness :
  headers fd_ab = "Folder Name" :: filter (occurs fd_ab) desired_order ∧
  head lines_ab = Some (header_line fd_ab) ∧
  "Creator" ∈ ordered_keys fd_ab ∧
  ("Editor" ∈ ordered_keys fd_ab → False).
Proof.
  destruct (header_columns fd_ab) as (Hheaders & _ & Hhead & _ & Hkeys).
  split_and!; [exact Hheaders|apply Hhead; by vm_compute| |].
  { apply (bool_decide_unpack _). vm_compute. exact I. }
  intros [Hin _]%Hkeys. unfold desired_order in Hin.
  rewrite !elem_of_cons, elem_of_nil in Hin.
  by destruct Hin as [?|[?|[?|[?|[]]]]].
Defined.

Lemma rows_follow_sorted_folders_witness :
  Dict.wf fd_ab ∧ new_table fd_ab = Ok lines_ab ∧
  ∃ rows,
    lines_ab = header_line fd_ab :: divider_line fd_ab :: rows ∧
    Forall2 (line_of fd_ab) (sorted_folders fd_ab) rows ∧
    sorted_folders fd_ab ≡ₚ Dict.keys fd_ab ∧
    ascending (sorted_folders fd_ab) ∧
    ∀ folders_data', folders_data' ≡ₚ fd_ab →
      new_table folders_data' = Ok lines_ab.
Proof.
  assert (Dict.wf fd_ab) as Hwf.
  { unfold Dict.wf. apply (bool_decide_unpack _). by vm_compute. }
  assert (new_table fd_ab = Ok lines_ab) as Hlines by (by vm_compute).
  split_and!; [done..|].
  exact (rows_follow_sorted_folders fd_ab lines_ab Hwf Hlines).
Defined.

Lemma description_cell_witness :
  row_cells "a" d_a =
    Ok ["a"; "Tool A<br>[Web editor](http://e)"; "1.0"; ""; "X"] ∧
  ∃ descr, get d_a "Description" (VStr "") = VStr descr ∧
    match d_a !! "Editor" with
    | Some v => ∃ e, v = VStr e ∧
        ["a"; "Tool A<br>[Web editor](http://e)"; "1.0"; ""; "X"] !! 1 =
          Some (descr +:+ "<br>[Web editor](" +:+ e +:+ ")")
    | None =>
        ["a"; "Tool A<br>[Web editor](http://e)"; "1.0"; ""; "X"] !! 1 =
          Some descr
    end.
Proof.
  split; [by vm_compute|]. apply (description_cell "a" d_a). by vm_compute.
Defined.

Lemma version_cell_witness :
  row_cells "s" d_beta = Ok ["s"; ""; "3<br>beta"; ""; ""] ∧
  match d_beta !! "Status" with
  | Some v => ∃ status, v = VStr status ∧
      ["s"; ""; "3<br>beta"; ""; ""] !! 2 =
        Some (str (get d_beta "Version" (VStr "")) +:+ "<br>" +:+ status)
  | None =>
      ["s"; ""; "3<br>beta"; ""; ""] !! 2 =
        Some (str (get d_beta "Version" (VStr "")))
  end.
Proof.
  split; [by vm_compute|]. apply (version_cell "s" d_beta). by vm_compute.
Defined.

Lemma rows_have_five_cells_witness :
  row "b" d_b = Ok [VStr "b"; VStr "Tool B"; VStr "2"; VStr "Go"; VStr ""] ∧
  length [VStr "b"; VStr "Tool B"; VStr "2"; VStr "Go"; VStr ""] = 5.
Proof.
  assert (row "b" d_b =
          Ok [VStr "b"; VStr "Tool B"; VStr "2"; VStr "Go"; VStr ""]) as Hrow
    by (by vm_compute).
  split; [done|].
  destruct (rows_have_five_cells fd_ab) as (Hfive & _).
  exact (Hfive "b" d_b _ Hrow).
Defined.

Lemma readme_is_replaced_witness :
  update_readme fd_ab cwd_ab = (Ok (), (update_readme fd_ab cwd_ab).2) ∧
  ∃ rows,
    Forall2 (line_of fd_ab) (sorted_folders fd_ab) rows ∧
    FS.lookup readme_path (update_readme fd_ab cwd_ab).2 =
      Some (FS.File ("# Releases  " +:+ nl +:+ header_line fd_ab +:+
                     divider_line fd_ab +:+ String.concat "" rows)).
Proof.
  split; [by vm_compute|]. apply (readme_is_replaced fd_ab cwd_ab).
  by vm_compute.
Defined.

Lemma no_metadata_gives_empty_row_witness :
  FS.lookup base_folder cwd_ab = Some (FS.Dir releases_ab) ∧
  "c" ∈ Dict.keys releases_ab ∧
  FS.lookup (path_join base_folder "c") cwd_ab = Some (FS.Dir files_c) ∧
  no_metadata (Dict.keys files_c) ∧
  scan toy_load (path_join base_folder "c") (Dict.keys files_c) ∅ cwd_ab
    = (Ok ∅, cwd_ab) ∧
  row_cells "c" ∅ = Ok ["c"; ""; ""; ""; ""].
Proof.
  assert ("c" ∈ Dict.keys releases_ab) as Hc.
  { apply (bool_decide_unpack _). by vm_compute. }
  assert (no_metadata (Dict.keys files_c)) as Hfiles.
  { by repeat constructor. }
  split_and!; [done..| |];
    by destruct (no_metadata_gives_empty_row toy_load cwd_ab releases_ab
                   "c" files_c eq_refl Hc eq_refl Hfiles) as (? & ? & _).
Defined.

Lemma parse_failure_aborts_witness :
  FS.lookup base_folder cwd_bad = Some (FS.Dir releases_bad) ∧
  "x" ∈ Dict.keys releases_bad ∧
  parse_fails toy_load cwd_bad "x" YAMLError ∧
  main toy_load cwd_bad = (Raise YAMLError, cwd_bad).
Proof.
  assert ("x" ∈ Dict.keys releases_bad) as Hx.
  { apply (bool_decide_unpack _). by vm_compute. }
  assert (parse_fails toy_load cwd_bad "x" YAMLError) as Hfails.
  { exists files_x, ["notes.txt"], "meta.yaml", [], "{".
    split_and!; try done. by repeat constructor. }
  split_and!; [done..|].
  destruct (parse_failure_aborts toy_load cwd_bad releases_bad "x" YAMLError
              eq_refl Hx Hfails) as [_ Hmain].
  eapply (Hmain ["a"; "README.md"] ["b"]); by vm_compute.
Defined.

(** * Further properties *)

(** ** Writing the file *)

Lemma store_store p c c' n n' :
  FS.store p c n = Some n' → FS.store p c' n' = FS.store p c' n.
Proof.
  revert n n'. induction p as [|name p IH]; intros n n' Hstore; [done|].
  destruct n as [|entries]; [done|]. destruct p as [|name' p].
  - rewrite store_single in Hstore.
    destruct (Dict.get name entries) as [[c0|entries0]|] eqn:Hget;
      simplify_eq; rewrite !store_single, dict_get_set, decide_True,
        dict_set_set, ?Hget by done; done.
  - rewrite store_cons in Hstore.
    apply bind_Some in Hstore as (n1 & Hn1 & Hstore).
    apply bind_Some in Hstore as (n2 & Hn2 & [= <-]).
    rewrite !store_cons, dict_get_set, decide_True, Hn1 by done.
    cbn [mbind option_bind]. rewrite (IH _ _ Hn2).
    destruct (FS.store (name' :: p) c' n1) as [n3|]; [|done].
    cbn [mbind option_bind]. by rewrite dict_set_set.
Qed.

Lemma store_readme c st st' :
  FS.store readme_path c st = Some st' ↔
  ∃ root entries, st = FS.Dir root ∧
    Dict.get "releases" root = Some (FS.Dir entries) ∧
    (∀ es, Dict.get "README.md" entries ≠ Some (FS.Dir es)) ∧
    st' = FS.Dir (Dict.set "releases"
            (FS.Dir (Dict.set "README.md" (FS.File c) entries)) root).
Proof.
  unfold readme_path, base_folder, path_join. simpl app. split.
  - destruct st as [|root]; [done|]. rewrite store_cons.
    intros (n1 & Hn1 & (n2 & Hn2 & [= <-])%bind_Some)%bind_Some.
    destruct n1 as [|entries]; [done|]. rewrite store_single in Hn2.
    exists root, entries.
    destruct (Dict.get "README.md" entries) as [[c0|es0]|]; simplify_eq;
      by split_and!.
  - intros (root & entries & -> & Hroot & Hreadme & ->).
    rewrite store_cons, Hroot. cbn [mbind option_bind].
    rewrite store_single.
    destruct (Dict.get "README.md" entries) as [[c0|es0]|] eqn:Hget;
      try done.
    by destruct (Hreadme es0).
Qed.

Lemma writelines_store p lines c st st1 :
  p ≠ [] → FS.store p c st = Some st1 →
  ∃ st', writelines p lines st1 = (Ok (), st') ∧
    FS.store p (c +:+ String.concat "" lines) st = Some st'.
Proof.
  intros Hp. revert c st1.
  induction lines as [|line lines IH]; intros c st1 Hstore.
  - exists st1. by rewrite app_empty_r.
  - cbn [writelines]. rewrite io_bind_unfold. unfold write.
    rewrite (store_lookup _ _ _ _ Hstore), (store_store _ _ _ _ _ Hstore).
    destruct (store_is_Some p (c +:+ line) c st1) as [st2 Hst2];
      [done|by eapply store_lookup|].
    rewrite (store_store _ _ _ _ _ Hstore) in Hst2. rewrite Hst2.
    destruct (IH _ _ Hst2) as (st' & Hlines & Hst').
    exists st'. split; [done|].
    by rewrite concat_empty_cons, <-app_assoc_text.
Qed.

(** What a run of [update_readme] that succeeds leaves behind. *)
Lemma update_readme_store fd st st' :
  update_readme fd st = (Ok (), st') ↔
  ∃ lines, new_table fd = Ok lines ∧
    FS.store readme_path (readme_text lines) st = Some st'.
Proof.
  rewrite update_readme_Ok. split.
  - intros (lines & st0 & Htable & Hopen & Hwrite). exists lines.
    split; [done|]. unfold open_w in Hopen.
    destruct (FS.store readme_path "" st) as [st0'|] eqn:Hst0; [|done].
    injection Hopen as ->.
    destruct (writelines_store readme_path
                (("# Releases  " +:+ nl) :: lines) "" st st0 ltac:(done) Hst0)
      as (st2 & Hlines & Hst2).
    cbn [writelines] in Hlines. rewrite Hlines in Hwrite.
    injection Hwrite as <-.
    by rewrite concat_empty_cons in Hst2.
  - intros (lines & Htable & Hstore). exists lines.
    apply store_readme in Hstore as (root & entries & -> & Hroot & Hreadme
                                     & ->).
    assert (∃ st0, FS.store readme_path "" (FS.Dir root) = Some st0)
      as [st0 Hst0].
    { eexists. apply store_readme. eauto 10. }
    exists st0. split; [done|]. unfold open_w. rewrite Hst0. split; [done|].
    destruct (writelines_store readme_path
                (("# Releases  " +:+ nl) :: lines) "" _ st0 ltac:(done) Hst0)
      as (st2 & Hlines & Hst2).
    cbn [writelines] in Hlines. rewrite Hlines. f_equal.
    rewrite concat_empty_cons in Hst2.
    apply store_readme in Hst2 as (? & ? & [= <-] & Hroot' & _ & ->).
    rewrite Hroot in Hroot'. by injection Hroot' as <-.
Qed.

(** ** When the table exists *)

Lemma dict_elem_of_keys {V} (d : Dict.t V) k :
  k ∈ Dict.keys d ↔ is_Some (Dict.get k d).
Proof.
  rewrite <-not_eq_None_Some, dict_get_None.
  split; [tauto|]. intros Hk. by apply dec_stable.
Qed.

Lemma elem_of_sorted_folders fd folder :
  folder ∈ sorted_folders fd ↔ is_Some (Dict.get folder fd).
Proof.
  unfold sorted_folders. by rewrite sorted_Permutation, dict_elem_of_keys.
Qed.

(** The table is built only of records that give a row. *)
Lemma new_table_Ok_printable fd lines :
  new_table fd = Ok lines →
  ∀ folder d, Dict.get folder fd = Some d → printable d.
Proof.
  intros (rows & -> & Hrows)%new_table_Ok folder d Hget.
  assert (folder ∈ sorted_folders fd) as [i Hi]%list_elem_of_lookup.
  { apply elem_of_sorted_folders. by eexists. }
  destruct (Forall2_lookup_l _ _ _ _ _ Hrows Hi)
    as (line & _ & d' & cells & Hd' & Hcells & _).
  rewrite Hget in Hd'. injection Hd' as <-.
  apply (row_cells_printable folder). by eexists.
Qed.

(** X1: a table is built only when every record holds text, where it holds
    anything, under Description, Editor, Status, Language and Creator: one
    number or null under such a key in one folder, and there is no table
    (under Version any value will do). *)
Theorem table_needs_text folders_data lines :
  new_table folders_data = Ok lines →
  ∀ folder d, Dict.get folder folders_data = Some d → printable d.
Proof. apply new_table_Ok_printable. Qed.

(** X2: a table that is built is the header line, the divider line and
    then one line for each folder of the mapping, which is the line of that
    folder: no folder is left out and none comes twice. *)
Theorem table_has_a_line_per_folder folders_data lines :
  new_table folders_data = Ok lines →
  ∃ rows,
    lines = header_line folders_data :: divider_line folders_data :: rows ∧
    Forall2 (line_of folders_data) (sorted_folders folders_data) rows ∧
    sorted_folders folders_data ≡ₚ Dict.keys folders_data ∧
    length lines = 2 + length folders_data.
Proof.
  intros (rows & -> & Hrows)%new_table_Ok. exists rows.
  split_and!; [done|done|apply sorted_Permutation|].
  apply Forall2_length in Hrows. simpl. rewrite <-Hrows.
  unfold sorted_folders, Dict.keys.
  by rewrite sorted_Permutation, length_fmap.
Qed.

(** ** What [update_readme] does to the files *)

Lemma store_readme_is_Some c st :
  readme_writable st ↔ is_Some (FS.store readme_path c st).
Proof.
  split.
  - intros (root & entries & -> & Hroot & Hreadme). eexists.
    apply store_readme. eauto 10.
  - intros [st' (root & entries & -> & Hroot & Hreadme & _)%store_readme].
    by exists root, entries.
Qed.

(** X3: [update_readme] builds the whole table before it opens the file.
    When a record holds a value that is not text under Description, Editor,
    Status, Language or Creator, or when [releases/README.md] cannot be
    opened for writing ([releases] is no directory, or [README.md] is a
    directory in it), it ends with an exception and no file is changed. *)
Theorem update_readme_fails_unchanged folders_data st :
  (∃ folder d, Dict.get folder folders_data = Some d ∧ ¬ printable d) ∨
  ¬ readme_writable st →
  ∃ e, update_readme folders_data st = (Raise e, st).
Proof.
  intros Hbad.
  destruct (update_readme folders_data st) as [[[]|e] st'] eqn:Hrun.
  - apply update_readme_store in Hrun as (lines & Hlines & Hstore).
    destruct Hbad as [(folder & d & Hd & Hnot)|Hnot]; destruct Hnot.
    + by eapply new_table_Ok_printable.
    + apply (store_readme_is_Some (readme_text lines)). by eexists.
  - exists e. by rewrite (update_readme_Raise _ _ _ _ Hrun).
Qed.

(** X4: a run of [update_readme] that succeeds changes [README.md] and
    nothing else: every path that does not lead to it holds what it held. *)
Theorem update_readme_touches_only_readme folders_data st st' q :
  update_readme folders_data st = (Ok (), st') →
  ¬ q `prefix_of` readme_path →
  FS.lookup q st' = FS.lookup q st.
Proof.
  intros (lines & _ & (root & entries & -> & Hroot & Hreadme & ->)%store_readme)
    %update_readme_store Hq.
  destruct q as [|name q]; [destruct Hq; by exists readme_path|].
  rewrite !lookup_cons, dict_get_set. case_decide as Hname; [|done].
  subst name. rewrite Hroot. cbn [mbind option_bind].
  destruct q as [|name q]; [destruct Hq; by exists ["README.md"]|].
  rewrite !lookup_cons, dict_get_set. case_decide as Hname; [|done].
  subst name. cbn [mbind option_bind].
  destruct q as [|name q]; [destruct Hq; by exists []|].
  destruct (Dict.get "README.md" entries) as [[c0|es]|] eqn:Hget; try done.
  by destruct (Hreadme es).
Qed.

(** ** What [main] reads *)

Section reading.
Variable safe_load : string → result document.

Lemma scan_cons_skip folder_path file rest data st :
  is_metadata file = false →
  scan safe_load folder_path (file :: rest) data st =
  scan safe_load folder_path rest data st.
Proof. intros Hfile. simpl. by rewrite Hfile. Qed.

Lemma scan_cons_read folder_path file rest data st :
  is_metadata file = true →
  scan safe_load folder_path (file :: rest) data st =
  match FS.lookup (path_join folder_path file) st with
  | Some (FS.File content) =>
      match safe_load content with
      | Ok file_data => (update data file_data, st)
      | Raise e => (Raise e, st)
      end
  | _ => (Raise OSError, st)
  end.
Proof.
  intros Hfile. simpl. rewrite Hfile, io_bind_unfold.
  unfold read_data. rewrite io_bind_unfold. unfold read_text.
  destruct (FS.lookup (path_join folder_path file) st) as [[content|]|];
    try done.
  all: unfold pure; by destruct (safe_load content).
Qed.

Lemma scan_skip folder_path skipped files data st :
  no_metadata skipped →
  scan safe_load folder_path (skipped ++ files) data st =
  scan safe_load folder_path files data st.
Proof.
  induction 1 as [|file skipped Hfile _ IH]; [done|].
  by rewrite <-app_comm_cons, scan_cons_skip.
Qed.

(** The listing of a folder is either free of metadata files or has a
    first one. *)
Lemma first_metadata_split files :
  no_metadata files ∨
  ∃ skipped file rest, files = skipped ++ file :: rest ∧
    no_metadata skipped ∧ is_metadata file = true.
Proof.
  induction files as [|file files [IH|(skipped & file' & rest & -> & ? & ?)]].
  - left. constructor.
  - destruct (is_metadata file) eqn:Hfile.
    + right. exists [], file, files. split_and!; [done| constructor|done].
    + left. by constructor.
  - destruct (is_metadata file) eqn:Hfile.
    + right. exists [], file, (skipped ++ file' :: rest).
      split_and!; [done|constructor|done].
    + right. exists (file :: skipped), file', rest.
      split_and!; [done|by constructor|done].
Qed.

Lemma scan_Ok folder_path files st data st' :
  scan safe_load folder_path files ∅ st = (Ok data, st') →
  (no_metadata files ∧ data = ∅) ∨
  ∃ skipped file rest content,
    files = skipped ++ file :: rest ∧
    no_metadata skipped ∧ is_metadata file = true ∧
    FS.lookup (path_join folder_path file) st = Some (FS.File content) ∧
    safe_load content = Ok (Mapping data).
Proof.
  destruct (first_metadata_split files)
    as [Hfiles|(skipped & file & rest & -> & Hskipped & Hfile)].
  - rewrite scan_no_metadata by done. intros [= <- _]. by left.
  - rewrite (scan_skip folder_path skipped), scan_cons_read by done.
    destruct (FS.lookup (path_join folder_path file) st)
      as [[content|]|] eqn:Hcontent; try done.
    destruct (safe_load content) as [[m|e]|e] eqn:Hload; simpl; try done.
    intros [= <- _]. right. exists skipped, file, rest, content.
    by rewrite (right_id_L ∅ (∪)).
Qed.

(** X5: in a folder only the first metadata file of the listing is read:
    its mapping is the record of the folder, whatever the files listed
    after it are or hold. *)
Theorem only_first_metadata_file_is_read
    folder_path skipped file rest content m st :
  no_metadata skipped →
  is_metadata file = true →
  FS.lookup (path_join folder_path file) st = Some (FS.File content) →
  safe_load content = Ok (Mapping m) →
  scan safe_load folder_path (skipped ++ file :: rest) ∅ st = (Ok m, st).
Proof.
  intros Hskipped Hfile Hcontent Hload.
  rewrite (scan_skip folder_path skipped), scan_cons_read by done.
  rewrite Hcontent, Hload. simpl. by rewrite (right_id_L ∅ (∪)).
Qed.

(** One turn of the outer loop on a folder whose metadata file cannot be
    taken in. *)
Lemma folders_loop_cons_Raise folder rest acc st file n e :
  first_metadata st folder file n →
  match n with
  | Some (FS.File content) =>
      safe_load content = Raise e ∨ safe_load content = Ok (NotMapping e)
  | _ => e = OSError
  end →
  folders_loop safe_load (folder :: rest) acc st = (Raise e, st).
Proof.
  intros (entries & skipped & rest' & Hfolder & Hkeys & Hskipped & Hfile
          & Hn) He.
  rewrite folders_loop_cons, Hfolder, Hkeys.
  rewrite (scan_skip _ skipped), scan_cons_read, Hn by done.
  destruct n as [[content|]|]; subst; try done.
  by destruct He as [->| ->].
Qed.

Lemma main_Raise_at st entries before folder rest folders_data e :
  FS.lookup base_folder st = Some (FS.Dir entries) →
  Dict.keys entries = before ++ folder :: rest →
  folders_loop safe_load before Dict.empty st = (Ok folders_data, st) →
  folders_loop safe_load (folder :: rest) folders_data st = (Raise e, st) →
  main safe_load st = (Raise e, st).
Proof.
  intros Hbase Hkeys Hbefore Hfolder.
  by rewrite (main_unfold _ _ _ Hbase), Hkeys, folders_loop_app, Hbefore,
    Hfolder.
Qed.

(** X6: a metadata file whose document is not a mapping (an empty file
    gives null) ends the run with the exception of [dict.update], and no
    file is changed. *)
Theorem non_mapping_document_aborts
    st entries before folder rest folders_data file content e :
  FS.lookup base_folder st = Some (FS.Dir entries) →
  Dict.keys entries = before ++ folder :: rest →
  folders_loop safe_load before Dict.empty st = (Ok folders_data, st) →
  first_metadata st folder file (Some (FS.File content)) →
  safe_load content = Ok (NotMapping e) →
  main safe_load st = (Raise e, st).
Proof.
  intros Hbase Hkeys Hbefore Hfile Hload.
  eapply main_Raise_at; [done..|].
  eapply folders_loop_cons_Raise; [done|]. by right.
Qed.

(** X7: a metadata file that cannot be opened as a file (a directory named
    [x.yaml]) ends the run with [OSError], and no file is changed. *)
Theorem unreadable_metadata_aborts
    st entries before folder rest folders_data file sub :
  FS.lookup base_folder st = Some (FS.Dir entries) →
  Dict.keys entries = before ++ folder :: rest →
  folders_loop safe_load before Dict.empty st = (Ok folders_data, st) →
  first_metadata st folder file (Some (FS.Dir sub)) →
  main safe_load st = (Raise OSError, st).
Proof.
  intros Hbase Hkeys Hbefore Hfile.
  eapply main_Raise_at; [done..|].
  by eapply folders_loop_cons_Raise.
Qed.

(** X8: an exception raised while the folders are read ends the run as
    it is: [main] handles none, and since the table is built and the file
    opened only afterwards, no file is changed.  Without a directory
    [releases] the run ends with [OSError]. *)
Theorem failed_reading_changes_nothing st :
  (∀ entries e st',
     FS.lookup base_folder st = Some (FS.Dir entries) →
     folders_loop safe_load (Dict.keys entries) Dict.empty st
       = (Raise e, st') →
     main safe_load st = (Raise e, st)) ∧
  ((∀ entries, FS.lookup base_folder st ≠ Some (FS.Dir entries)) →
   main safe_load st = (Raise OSError, st)).
Proof.
  split.
  - intros entries e st' Hbase Hloop.
    by rewrite (main_unfold _ _ _ Hbase), Hloop.
  - intros Hbase. unfold main. rewrite io_bind_unfold. unfold listdir.
    destruct (FS.lookup base_folder st) as [[content|entries]|]; try done.
    by destruct (Hbase entries).
Qed.

Lemma folders_loop_cons_record folder rest acc st data :
  record_of safe_load st folder data →
  folders_loop safe_load (folder :: rest) acc st =
  folders_loop safe_load rest (Dict.set folder data acc) st.
Proof.
  intros [(files & Hfolder & Hfiles & ->)
         |(file & content & (files & skipped & rest' & Hfolder & Hkeys
            & Hskipped & Hfile & Hcontent) & Hload)];
    rewrite folders_loop_cons, Hfolder.
  - by rewrite scan_no_metadata.
  - rewrite Hkeys, (scan_skip _ skipped), scan_cons_read, Hcontent, Hload
      by done.
    simpl. by rewrite (right_id_L ∅ (∪)).
Qed.

Lemma scan_record_of folder files data st st' :
  FS.lookup (path_join base_folder folder) st = Some (FS.Dir files) →
  scan safe_load (path_join base_folder folder) (Dict.keys files) ∅ st
    = (Ok data, st') →
  record_of safe_load st folder data.
Proof.
  intros Hfolder [[Hfiles ->]|(skipped & file & rest & content & Hkeys
    & Hskipped & Hfile & Hcontent & Hload)]%scan_Ok.
  - left. by exists files.
  - right. exists file, content. split; [|done].
    by exists files, skipped, rest.
Qed.

Lemma folders_loop_inv entries acc st folders_data st' :
  folders_loop safe_load entries acc st = (Ok folders_data, st') →
  (∀ folder, folder ∈ Dict.keys folders_data ↔
     folder ∈ Dict.keys acc ∨
     (folder ∈ entries ∧ ∃ files,
        FS.lookup (path_join base_folder folder) st = Some (FS.Dir files))) ∧
  (∀ folder d, Dict.get folder folders_data = Some d →
     Dict.get folder acc = Some d ∨ record_of safe_load st folder d).
Proof.
  revert acc. induction entries as [|folder' rest IH]; intros acc.
  - intros [= <- _]. split; [|by left]. intros folder.
    rewrite elem_of_nil. tauto.
  - rewrite folders_loop_cons.
    destruct (FS.lookup (path_join base_folder folder') st)
      as [[content|files]|] eqn:Hfolder'.
    1, 3: intros [Hkeys Hrecords]%IH; split; [|done]; intros folder;
      rewrite Hkeys, elem_of_cons;
      split; [intros [?|[? ?]]; by auto|];
      (intros [?|[[->|?] [files Hfiles]]]; [by auto|congruence|by eauto]).
    destruct (scan _ _ _ _ _) as [[data|] st1] eqn:Hscan; [|done].
    apply scan_record_of in Hscan; [|done].
    intros [Hkeys Hrecords]%IH. split.
    + intros folder.
      rewrite Hkeys, elem_of_cons, !dict_elem_of_keys, dict_get_set.
      case_decide as Hfolder; subst.
      * split; [|by eauto]. intros _. right. by eauto.
      * split; [intros [?|[? ?]]; by auto|].
        intros [?|[[->|?] ?]]; by auto.
    + intros folder d [Hd|Hd]%Hrecords; [|by right].
      rewrite dict_get_set in Hd. case_decide; simplify_eq; by auto.
Qed.

(** X9: the mapping that [main] builds has exactly the entries of
    [releases] that are directories, each once, with the record read from
    its first metadata file or the empty record; a plain file in
    [releases], such as [README.md] itself, gives no folder.  Reading
    changes no file. *)
Theorem mapping_holds_the_directories entries st folders_data st' :
  folders_loop safe_load entries Dict.empty st = (Ok folders_data, st') →
  st' = st ∧ Dict.wf folders_data ∧
  (∀ folder, folder ∈ Dict.keys folders_data ↔
     folder ∈ entries ∧ ∃ files,
       FS.lookup (path_join base_folder folder) st = Some (FS.Dir files)) ∧
  (∀ folder d, Dict.get folder folders_data = Some d →
     record_of safe_load st folder d).
Proof.
  intros Hloop. split_and!.
  - pose proof (folders_loop_state safe_load entries Dict.empty st) as Hst.
    by rewrite Hloop in Hst.
  - eapply folders_loop_wf; [|done]. apply NoDup_nil_2.
  - intros folder. apply folders_loop_inv in Hloop as [-> _].
    unfold Dict.empty, Dict.keys at 1. rewrite fmap_nil, elem_of_nil. tauto.
  - intros folder d Hd. apply folders_loop_inv in Hloop as [_ Hrecords].
    by destruct (Hrecords folder d Hd).
Qed.

Lemma folders_loop_records (P : record → Prop) entries acc st :
  (∀ folder files, folder ∈ entries →
     FS.lookup (path_join base_folder folder) st = Some (FS.Dir files) →
     ∃ data, record_of safe_load st folder data ∧ P data) →
  (∀ folder d, Dict.get folder acc = Some d → P d) →
  ∃ folders_data,
    folders_loop safe_load entries acc st = (Ok folders_data, st) ∧
    ∀ folder d, Dict.get folder folders_data = Some d → P d.
Proof.
  revert acc. induction entries as [|folder' rest IH]; intros acc Hin Hacc.
  - by exists acc.
  - assert (∀ folder files, folder ∈ rest →
       FS.lookup (path_join base_folder folder) st = Some (FS.Dir files) →
       ∃ data, record_of safe_load st folder data ∧ P data) as Hrest.
    { intros folder files Hfolder. apply Hin. by right. }
    destruct (FS.lookup (path_join base_folder folder') st)
      as [[content|files]|] eqn:Hfolder'.
    1, 3: rewrite folders_loop_cons, Hfolder'; by apply IH.
    destruct (Hin folder' files) as (data & Hdata & Hprintable);
      [left|done|].
    rewrite (folders_loop_cons_record _ _ _ _ data) by done.
    apply IH; [done|]. intros folder d. rewrite dict_get_set.
    case_decide; [|by apply Hacc]. by intros [= <-].
Qed.

(** X10: reading succeeds whenever every listed directory has no metadata
    file, or a first metadata file that can be opened and holds a mapping;
    each folder then has that record, and no file is changed. *)
Theorem reading_succeeds entries st :
  (∀ folder files, folder ∈ entries →
     FS.lookup (path_join base_folder folder) st = Some (FS.Dir files) →
     ∃ data, record_of safe_load st folder data) →
  ∃ folders_data,
    folders_loop safe_load entries Dict.empty st = (Ok folders_data, st) ∧
    ∀ folder d, Dict.get folder folders_data = Some d →
      record_of safe_load st folder d.
Proof.
  intros Hfolders.
  destruct (folders_loop_records (λ _, True) entries Dict.empty st)
    as (fd & Hloop & _); [|done|].
  { intros folder files Hfolder Hfiles.
    destruct (Hfolders folder files Hfolder Hfiles) as [data Hdata].
    by exists data. }
  exists fd. split; [done|]. intros folder d Hd.
  apply folders_loop_inv in Hloop as [_ Hrecords].
  by destruct (Hrecords folder d Hd).
Qed.

(** ** Running [main] again *)

Lemma lookup_app p q n : FS.lookup (p ++ q) n = FS.lookup p n ≫= FS.lookup q.
Proof.
  revert n. induction p as [|name p IH]; intros n; [done|].
  destruct n as [|entries]; [done|]. rewrite <-app_comm_cons, !lookup_cons.
  destruct (Dict.get name entries) as [n'|]; [|done]. apply IH.
Qed.

Lemma dict_keys_set {V} (d : Dict.t V) k v :
  Dict.keys (Dict.set k v d) =
  if decide (k ∈ Dict.keys d) then Dict.keys d else Dict.keys d ++ [k].
Proof.
  unfold Dict.keys. induction d as [|[k0 v0] d IH]; [done|].
  cbn [Dict.set]. destruct (decide (k = k0)) as [->|Hne]; rewrite !fmap_cons.
  - rewrite decide_True; [done|left].
  - rewrite IH. cbn [fst]. destruct (decide (k ∈ d.*1)) as [Hin|Hin].
    + rewrite decide_True; [done|by right].
    + rewrite decide_False; [done|].
      by intros [?|?]%elem_of_cons.
Qed.

(** The loops read a folder through what is under its path, and nothing
    else of the file system. *)
Lemma scan_agree folder_path files data st st' :
  FS.lookup folder_path st' = FS.lookup folder_path st →
  (scan safe_load folder_path files data st').1 =
  (scan safe_load folder_path files data st).1.
Proof.
  intros Hpath. induction files as [|file rest IH]; [done|].
  destruct (is_metadata file) eqn:Hfile.
  - rewrite !scan_cons_read by done. unfold path_join.
    rewrite !lookup_app, Hpath.
    destruct (FS.lookup folder_path st ≫= FS.lookup [file]) as [[content|]|];
      try done.
    by destruct (safe_load content).
  - by rewrite !scan_cons_skip.
Qed.

Lemma folders_loop_agree entries acc st st' :
  (∀ folder, folder ∈ entries →
     FS.lookup (path_join base_folder folder) st' =
       FS.lookup (path_join base_folder folder) st ∨
     ((∀ es, FS.lookup (path_join base_folder folder) st' ≠ Some (FS.Dir es)) ∧
      (∀ es, FS.lookup (path_join base_folder folder) st ≠ Some (FS.Dir es)))) →
  (folders_loop safe_load entries acc st').1 =
  (folders_loop safe_load entries acc st).1.
Proof.
  revert acc. induction entries as [|folder rest IH]; intros acc Hin; [done|].
  assert (∀ acc', (folders_loop safe_load rest acc' st').1 =
                  (folders_loop safe_load rest acc' st).1) as Hrest.
  { intros acc'. apply IH. intros folder' Hfolder'. apply Hin. by right. }
  rewrite !folders_loop_cons. destruct (Hin folder) as [Heq|[Hst' Hst]]; [left| |].
  - rewrite Heq.
    destruct (FS.lookup (path_join base_folder folder) st)
      as [[content|files]|] eqn:Hfolder; try done.
    pose proof (scan_agree (path_join base_folder folder) (Dict.keys files)
                  ∅ st st' (eq_trans Heq (eq_sym Hfolder))) as Hscan.
    destruct (scan _ _ _ _ st') as [[data'|e'] s1'];
      destruct (scan _ _ _ _ st) as [[data|e] s1]; simplify_eq/=; done.
  - destruct (FS.lookup (path_join base_folder folder) st')
      as [[content'|files']|]; [|by destruct (Hst' files')|];
      (destruct (FS.lookup (path_join base_folder folder) st)
         as [[content|files]|]; [|by destruct (Hst files)|]); done.
Qed.

(** X11: [main] run again on its own result succeeds and changes nothing:
    the file it has written into [releases] is not a directory, so it gives
    no row, and the same text is written over it. *)
Theorem second_run_changes_nothing st st' :
  main safe_load st = (Ok (), st') → main safe_load st' = (Ok (), st').
Proof.
  intros Hmain.
  destruct (FS.lookup base_folder st) as [[content|entries]|] eqn:Hbase.
  1, 3: unfold main in Hmain; rewrite io_bind_unfold in Hmain;
    unfold listdir in Hmain; by rewrite Hbase in Hmain.
  rewrite (main_unfold _ _ _ Hbase) in Hmain.
  pose proof (folders_loop_state safe_load (Dict.keys entries) Dict.empty st)
    as Hst.
  destruct (folders_loop _ _ _ st) as [[fd|e] s1] eqn:Hloop; [|done].
  simpl in Hst. subst s1.
  pose proof Hmain as (lines & Hlines & Hstore)%update_readme_store.
  pose proof Hstore
    as (root & entries' & -> & Hroot & Hreadme & ->)%store_readme.
  assert (entries' = entries) as ->.
  { unfold base_folder in Hbase. rewrite lookup_cons, Hroot in Hbase.
    by injection Hbase. }
  set (written := Dict.set "README.md" (FS.File (readme_text lines)) entries).
  set (st' := FS.Dir (Dict.set "releases" (FS.Dir written) root)) in *.
  assert (∀ folder, FS.lookup (path_join base_folder folder) st' =
            Dict.get folder written) as Hst'.
  { intros folder. unfold path_join, base_folder, st'. simpl app.
    rewrite !lookup_cons, dict_get_set, decide_True by done.
    cbn [mbind option_bind]. rewrite lookup_cons.
    by destruct (Dict.get folder written). }
  assert (∀ folder, FS.lookup (path_join base_folder folder) (FS.Dir root) =
            Dict.get folder entries) as Hst.
  { intros folder. unfold path_join, base_folder. simpl app.
    rewrite !lookup_cons, Hroot. cbn [mbind option_bind].
    rewrite lookup_cons. by destruct (Dict.get folder entries). }
  assert (FS.lookup base_folder st' = Some (FS.Dir written)) as Hbase'.
  { unfold base_folder, st'. by rewrite lookup_cons, dict_get_set, decide_True. }
  assert (folders_loop safe_load (Dict.keys entries) Dict.empty st'
          = (Ok fd, st')) as Hloop'.
  { pose proof (folders_loop_state safe_load (Dict.keys entries) Dict.empty
                  st') as Hstate.
    pose proof (folders_loop_agree (Dict.keys entries) Dict.empty
                  (FS.Dir root) st') as Hagree.
    rewrite Hloop in Hagree.
    destruct (folders_loop _ _ _ st') as [r s1]. simpl in *. subst s1.
    rewrite Hagree; [done|]. intros folder _. rewrite Hst', Hst.
    unfold written. rewrite dict_get_set. case_decide; [|by left].
    subst folder. right. split; [done|apply Hreadme]. }
  assert (folders_loop safe_load (Dict.keys written) Dict.empty st'
          = (Ok fd, st')) as Hloop''.
  { unfold written at 1. rewrite dict_keys_set. case_decide; [done|].
    rewrite folders_loop_app, Hloop', folders_loop_cons, Hst'.
    unfold written. by rewrite dict_get_set, decide_True. }
  rewrite (main_unfold _ _ _ Hbase'), Hloop''.
  apply update_readme_store. exists lines. split; [done|].
  by rewrite (store_store _ _ _ _ _ Hstore).
Qed.
End reading.

(** ** Keys that are not read *)

Lemma filter_ext_elem {A} (P Q : A → Prop)
    `{!∀ x, Decision (P x), !∀ x, Decision (Q x)} (l : list A) :
  (∀ x, x ∈ l → P x ↔ Q x) → filter P l = filter Q l.
Proof.
  induction l as [|x l IH]; intros Hl; [done|].
  rewrite !filter_cons, IH.
  - destruct (Hl x) as [HPQ HQP]; [left|].
    destruct (decide (P x)), (decide (Q x)); try done; exfalso; tauto.
  - intros y Hy. apply Hl. by right.
Qed.

Lemma row_line_agree folder d d' :
  agree_on_used d d' → row_line folder d' = row_line folder d.
Proof.
  intros Hd. unfold row_line, row, descr_cell, vers_cell, get, contains.
  by rewrite (Hd "Description"), (Hd "Editor"), (Hd "Version"),
    (Hd "Status"), (Hd "Language"), (Hd "Creator")
    by (unfold used_keys; repeat constructor).
Qed.

Lemma same_used_keys fd fd' : same_used fd fd' → Dict.keys fd' = Dict.keys fd.
Proof.
  unfold Dict.keys. induction 1 as [|[k d] [k' d'] fd fd' [Hk _] _ IH];
    [done|].
  rewrite !fmap_cons, IH. simpl in *. by rewrite Hk.
Qed.

Lemma same_used_get fd fd' folder :
  same_used fd fd' →
  option_Forall2 agree_on_used (Dict.get folder fd) (Dict.get folder fd').
Proof.
  induction 1 as [|[k d] [k' d'] fd fd' [Hk Hd] _ IH]; simpl in *.
  - constructor.
  - subst k'. case_decide; [by constructor|done].
Qed.

Lemma same_used_occurs fd fd' key :
  same_used fd fd' → key ∈ used_keys → occurs fd' key ↔ occurs fd key.
Proof.
  intros Hfd Hkey. unfold occurs, Dict.values.
  induction Hfd as [|[k d] [k' d'] fd fd' [_ Hd] _ IH]; [done|].
  rewrite !fmap_cons, !Exists_cons, IH. simpl in *. by rewrite (Hd key Hkey).
Qed.

Lemma same_used_rows_loop fd fd' folders acc :
  same_used fd fd' →
  rows_loop fd' folders acc = rows_loop fd folders acc.
Proof.
  intros Hfd. revert acc.
  induction folders as [|folder rest IH]; intros acc; [done|].
  cbn [rows_loop]. unfold Dict.getitem.
  destruct (same_used_get fd fd' folder Hfd) as [d d' Hd|]; [|done].
  result_simpl. rewrite (row_line_agree folder d d' Hd).
  destruct (row_line folder d); [apply IH|done].
Qed.

(** X12: among records with text keys, the keys other than Description,
    Editor, Version, Status, Language and Creator never change the table:
    two mappings with the same folders whose records agree on these six
    keys give the same lines, or fail alike. *)
Theorem other_keys_are_ignored folders_data folders_data' :
  same_used folders_data folders_data' →
  new_table folders_data' = new_table folders_data.
Proof.
  intros Hfd. unfold new_table.
  assert (headers folders_data' = headers folders_data) as Hheaders.
  { unfold headers. rewrite !ordered_keys_filter. f_equal.
    apply filter_ext_elem. intros key Hkey.
    apply same_used_occurs; [done|].
    unfold desired_order in Hkey. unfold used_keys.
    rewrite !elem_of_cons in Hkey. rewrite !elem_of_cons. tauto. }
  unfold header_line, divider_line, dividers, sorted_folders.
  rewrite Hheaders, (same_used_keys _ _ Hfd).
  by apply same_used_rows_loop.
Qed.


(** ** The names of metadata files *)

Lemma app_cons a (s t : string) : String a s +:+ t = String a (s +:+ t).
Proof. done. Qed.

Lemma length_app_text (s t : string) :
  String.length (s +:+ t) = String.length s + String.length t.
Proof.
  induction s as [|a s IH]; [done|]. rewrite app_cons. simpl. by rewrite IH.
Qed.

Lemma substring_all s : String.substring 0 (String.length s) s = s.
Proof. induction s as [|a s IH]; simpl; [done|by rewrite IH]. Qed.

Lemma substring_app_r (stem s : string) m :
  String.substring (String.length stem) m (stem +:+ s) =
  String.substring 0 m s.
Proof. induction stem as [|a stem IH]; [done|]. by rewrite app_cons. Qed.

Lemma substring_split k s :
  k ≤ String.length s →
  s = String.substring 0 k s +:+
      String.substring k (String.length s - k) s.
Proof.
  revert s. induction k as [|k IH]; intros s Hk.
  - rewrite Nat.sub_0_r, substring_all. by destruct s.
  - destruct s as [|a s]; simpl in *; [lia|].
    rewrite app_cons. f_equal. apply IH. lia.
Qed.

Lemma endswith_spec s suffix :
  endswith s suffix = true ↔ ∃ stem, s = stem +:+ suffix.
Proof.
  unfold endswith. rewrite andb_true_iff, Nat.leb_le, String.eqb_eq. split.
  - remember (String.length suffix) as m eqn:Hm. intros [Hle Hsuffix].
    exists (String.substring 0 (String.length s - m) s).
    rewrite <-Hsuffix.
    rewrite (substring_split (String.length s - m) s) at 1 by lia.
    do 2 f_equal. lia.
  - intros [stem ->]. rewrite length_app_text. split; [lia|].
    replace (String.length stem + String.length suffix - String.length suffix)
      with (String.length stem) by lia.
    by rewrite substring_app_r, substring_all.
Qed.

(** X14: the metadata files are the names that end in [.yaml] or in
    [.yml], and no others. *)
Theorem metadata_files_by_suffix file :
  is_metadata file = true ↔
  ∃ stem, file = stem +:+ ".yaml" ∨ file = stem +:+ ".yml".
Proof.
  unfold is_metadata. rewrite orb_true_iff, !endswith_spec. split.
  - intros [[stem ->]|[stem ->]]; eauto.
  - intros [stem [->| ->]]; eauto.
Qed.

(** ** The order of the listing *)

Lemma first_metadata_unique skipped file rest skipped' file' rest' :
  skipped ++ file :: rest = skipped' ++ file' :: rest' →
  no_metadata skipped → is_metadata file = true →
  no_metadata skipped' → is_metadata file' = true →
  file = file'.
Proof.
  intros Heq Hskipped Hfile. revert skipped' Heq.
  induction Hskipped as [|f skipped Hf _ IH]; intros skipped' Heq Hskipped' Hfile'.
  - destruct Hskipped' as [|f' skipped' Hf' _]; simplify_eq/=; congruence.
  - destruct Hskipped' as [|f' skipped' Hf' Hskipped']; simplify_eq/=.
    + congruence.
    + by eapply IH.
Qed.

Section listing.
Variable safe_load : string → result document.

(** A folder has one record. *)
Lemma record_of_inj st folder d d' :
  record_of safe_load st folder d → record_of safe_load st folder d' → d = d'.
Proof.
  intros [(files & Hfolder & Hfiles & ->)
         |(file & content & (files & skipped & rest & Hfolder & Hkeys
            & Hskipped & Hfile & Hcontent) & Hload)]
         [(files' & Hfolder' & Hfiles' & ->)
         |(file' & content' & (files' & skipped' & rest' & Hfolder' & Hkeys'
            & Hskipped' & Hfile' & Hcontent') & Hload')];
    rewrite Hfolder in Hfolder'; simplify_eq.
  - done.
  - unfold no_metadata in Hfiles. rewrite Hkeys' in Hfiles.
    apply Forall_app in Hfiles as [_ [Hfile'' _]%Forall_cons]. congruence.
  - unfold no_metadata in Hfiles'. rewrite Hkeys in Hfiles'.
    apply Forall_app in Hfiles' as [_ [Hfile'' _]%Forall_cons]. congruence.
  - rewrite Hkeys in Hkeys'.
    pose proof (first_metadata_unique _ _ _ _ _ _ Hkeys' Hskipped Hfile
                  Hskipped' Hfile') as <-.
    rewrite Hcontent in Hcontent'. simplify_eq. congruence.
Qed.

(** X15: the order in which [os.listdir] gives the entries of [releases]
    does not matter to a run that succeeds: the loop over any other order
    of the same listing succeeds too, with the same folders and records,
    and the table is the same. *)
Theorem listing_order_is_irrelevant entries entries' st folders_data :
  entries' ≡ₚ entries →
  folders_loop safe_load entries Dict.empty st = (Ok folders_data, st) →
  ∃ folders_data',
    folders_loop safe_load entries' Dict.empty st = (Ok folders_data', st) ∧
    folders_data' ≡ₚ folders_data ∧
    new_table folders_data' = new_table folders_data.
Proof.
  intros Hperm Hloop.
  pose proof (folders_loop_inv safe_load _ _ _ _ _ Hloop) as [Hkeys Hrecords].
  assert (Dict.wf folders_data) as Hwf.
  { eapply folders_loop_wf; [|done]. apply NoDup_nil_2. }
  destruct (folders_loop_records safe_load (λ _, True) entries' Dict.empty st)
    as (fd' & Hloop' & _); [|done|].
  { intros folder files Hfolder Hfiles.
    assert (folder ∈ Dict.keys folders_data) as [d Hd]%dict_elem_of_keys.
    { apply Hkeys. right. rewrite <-Hperm. eauto. }
    exists d. split; [|done]. by destruct (Hrecords folder d Hd). }
  pose proof (folders_loop_inv safe_load _ _ _ _ _ Hloop')
    as [Hkeys' Hrecords'].
  assert (Dict.wf fd') as Hwf'.
  { eapply folders_loop_wf; [|done]. apply NoDup_nil_2. }
  assert (fd' ≡ₚ folders_data) as Hfd'.
  { apply NoDup_Permutation.
    - eapply NoDup_fmap_1, Hwf'.
    - eapply NoDup_fmap_1, Hwf.
    - assert (∀ fd1 fd2 : Dict.t record,
        Dict.wf fd1 → Dict.wf fd2 →
        (∀ folder, folder ∈ Dict.keys fd1 → folder ∈ Dict.keys fd2) →
        (∀ folder d, Dict.get folder fd1 = Some d →
           record_of safe_load st folder d) →
        (∀ folder d, Dict.get folder fd2 = Some d →
           record_of safe_load st folder d) →
        ∀ x, x ∈ fd1 → x ∈ fd2) as Hsub.
      { intros fd1 fd2 Hwf1 Hwf2 Hk H1 H2 [folder d] Hin.
        apply dict_get_elem_of in Hin; [|done].
        assert (folder ∈ Dict.keys fd2) as [d2 Hd2]%dict_elem_of_keys.
        { apply Hk, dict_elem_of_keys. by eexists. }
        rewrite (record_of_inj st folder d d2); eauto using dict_get_Some. }
      intros x. split; apply Hsub; try done.
      + intros folder [[]%elem_of_nil|[Hin Hdir]]%Hkeys'. apply Hkeys.
        right. by rewrite <-Hperm.
      + intros folder d Hd. by destruct (Hrecords' folder d Hd).
      + intros folder d Hd. by destruct (Hrecords folder d Hd).
      + intros folder [[]%elem_of_nil|[Hin Hdir]]%Hkeys. apply Hkeys'.
        right. by rewrite Hperm.
      + intros folder d Hd. by destruct (Hrecords folder d Hd).
      + intros folder d Hd. by destruct (Hrecords' folder d Hd). }
  exists fd'. split_and!; [done..|]. by apply new_table_perm.
Qed.
End listing.

(** * The further properties on the examples *)

Lemma table_needs_text_witness :
  new_table fd_ab = Ok lines_ab ∧ printable d_a.
Proof.
  assert (new_table fd_ab = Ok lines_ab) as Hlines by reflexivity.
  split; [done|]. apply (table_needs_text fd_ab lines_ab Hlines "a").
  reflexivity.
Defined.

Lemma table_has_a_line_per_folder_witness :
  new_table fd_ab = Ok lines_ab ∧
  ∃ rows,
    lines_ab = header_line fd_ab :: divider_line fd_ab :: rows ∧
    Forall2 (line_of fd_ab) (sorted_folders fd_ab) rows ∧
    sorted_folders fd_ab ≡ₚ Dict.keys fd_ab ∧
    length lines_ab = 2 + length fd_ab.
Proof.
  assert (new_table fd_ab = Ok lines_ab) as Hlines by reflexivity.
  split; [done|]. exact (table_has_a_line_per_folder fd_ab lines_ab Hlines).
Defined.

Lemma update_readme_fails_unchanged_witness :
  (∃ e, update_readme fd_number cwd_ab = (Raise e, cwd_ab)) ∧
  (∃ e, update_readme fd_ab cwd_readme_dir = (Raise e, cwd_readme_dir)).
Proof.
  split.
  - apply (update_readme_fails_unchanged fd_number cwd_ab). left.
    exists "n", (<["Description" := VInt 2024]> ∅). split; [reflexivity|].
    intros Hprintable.
    destruct (Hprintable "Description" (VInt 2024)) as [s Hs];
      [left|reflexivity|discriminate Hs].
  - apply (update_readme_fails_unchanged fd_ab cwd_readme_dir). right.
    intros (root & entries & Hroot & Hreleases & Hreadme).
    injection Hroot as <-. vm_compute in Hreleases.
    injection Hreleases as <-. by destruct (Hreadme []).
Defined.

Lemma update_readme_touches_only_readme_witness :
  FS.lookup ["releases"; "a"; "info.yml"] (update_readme fd_ab cwd_ab).2 =
  FS.lookup ["releases"; "a"; "info.yml"] cwd_ab.
Proof.
  apply (update_readme_touches_only_readme fd_ab cwd_ab).
  - reflexivity.
  - intros [k Hk]. by vm_compute in Hk.
Defined.

Lemma only_first_metadata_file_is_read_witness :
  scan toy_load ["releases"; "a"] ([] ++ "info.yml" :: ["z.yaml"]) ∅ cwd_ab
    = (Ok d_a, cwd_ab).
Proof.
  apply (only_first_metadata_file_is_read toy_load ["releases"; "a"] []
           "info.yml" ["z.yaml"] "a" d_a cwd_ab).
  - constructor.
  - reflexivity.
  - reflexivity.
  - reflexivity.
Defined.

Lemma non_mapping_document_aborts_witness :
  main toy_load cwd_empty_doc = (Raise TypeError, cwd_empty_doc).
Proof.
  apply (non_mapping_document_aborts toy_load cwd_empty_doc releases_empty_doc
           ["a"] "e" [] [("a", d_a)] "meta.yml" "" TypeError).
  - reflexivity.
  - reflexivity.
  - reflexivity.
  - exists [("meta.yml", FS.File "")], [], [].
    split_and!; [reflexivity|reflexivity|constructor|reflexivity
                |reflexivity].
  - reflexivity.
Defined.

Lemma unreadable_metadata_aborts_witness :
  main toy_load cwd_dir_yaml = (Raise OSError, cwd_dir_yaml).
Proof.
  apply (unreadable_metadata_aborts toy_load cwd_dir_yaml releases_dir_yaml
           ["a"] "d" [] [("a", d_a)] "old.yaml" []).
  - reflexivity.
  - reflexivity.
  - reflexivity.
  - exists [("old.yaml", FS.Dir []); ("info.yaml", FS.File "b")], [],
      ["info.yaml"].
    split_and!; [reflexivity|reflexivity|constructor|reflexivity
                |reflexivity].
Defined.

Lemma mapping_holds_the_directories_witness :
  folders_loop toy_load (Dict.keys releases_ab) Dict.empty cwd_ab
    = (Ok fd_abc, cwd_ab) ∧
  Dict.wf fd_abc ∧ "README.md" ∉ Dict.keys fd_abc.
Proof.
  assert (folders_loop toy_load (Dict.keys releases_ab) Dict.empty cwd_ab
          = (Ok fd_abc, cwd_ab)) as Hloop by reflexivity.
  destruct (mapping_holds_the_directories toy_load _ _ _ _ Hloop)
    as (_ & Hwf & Hkeys & _).
  split_and!; [done..|]. intros [_ [files Hfiles]]%Hkeys.
  by vm_compute in Hfiles.
Defined.

Lemma failed_reading_changes_nothing_witness :
  main toy_load cwd_bad = (Raise YAMLError, cwd_bad).
Proof.
  destruct (failed_reading_changes_nothing toy_load cwd_bad) as [Hread _].
  apply (Hread releases_bad YAMLError cwd_bad); reflexivity.
Defined.

Lemma reading_succeeds_witness :
  ∃ folders_data,
    folders_loop toy_load (Dict.keys releases_ab) Dict.empty cwd_ab
      = (Ok folders_data, cwd_ab) ∧
    ∀ folder d, Dict.get folder folders_data = Some d →
      record_of toy_load cwd_ab folder d.
Proof.
  apply (reading_succeeds toy_load (Dict.keys releases_ab) cwd_ab).
  intros folder files Hfolder Hfiles.
  unfold releases_ab, Dict.keys in Hfolder.
  rewrite !fmap_cons, fmap_nil, !elem_of_cons, elem_of_nil in Hfolder.
  destruct Hfolder as [->|[->|[->|[->|[]]]]].
  - exists d_b. right. exists "info.yaml", "b". split; [|reflexivity].
    exists [("notes.txt", FS.File "n"); ("info.yaml", FS.File "b")],
      ["notes.txt"], [].
    split_and!; [reflexivity|reflexivity|by repeat constructor
                |reflexivity|reflexivity].
  - by vm_compute in Hfiles.
  - exists d_a. right. exists "info.yml", "a". split; [|reflexivity].
    exists [("info.yml", FS.File "a"); ("z.yaml", FS.File "{")], [],
      ["z.yaml"].
    split_and!; [reflexivity|reflexivity|constructor
                |reflexivity|reflexivity].
  - exists ∅. left. exists files_c.
    split_and!; [reflexivity|by repeat constructor|done].
Defined.

Lemma second_run_changes_nothing_witness :
  main toy_load (main toy_load cwd_ab).2 = (Ok (), (main toy_load cwd_ab).2).
Proof.
  apply (second_run_changes_nothing toy_load cwd_ab). reflexivity.
Defined.

Lemma other_keys_are_ignored_witness :
  new_table fd_ab_notes = new_table [("b", d_b); ("a", d_a)].
Proof.
  apply (other_keys_are_ignored [("b", d_b); ("a", d_a)] fd_ab_notes).
  repeat constructor; simpl; intros key Hkey; unfold used_keys in Hkey;
    rewrite !elem_of_cons, elem_of_nil in Hkey;
    destruct Hkey as [->|[->|[->|[->|[->|[->|[]]]]]]]; reflexivity.
Defined.


Lemma listing_order_is_irrelevant_witness :
  ∃ folders_data',
    folders_loop toy_load ["c"; "a"; "README.md"; "b"] Dict.empty cwd_ab
      = (Ok folders_data', cwd_ab) ∧
    folders_data' ≡ₚ fd_abc ∧
    new_table folders_data' = new_table fd_abc.
Proof.
  apply (listing_order_is_irrelevant toy_load (Dict.keys releases_ab)
           ["c"; "a"; "README.md"; "b"] cwd_ab fd_abc).
  - apply (bool_decide_unpack _). by vm_compute.
  - reflexivity.
Defined.
